(** * LLM-Checkpoint: the snapshot store, its commands and the save handler

    A shallow embedding of [FileVersionDB] (src/src/db/index.ts, the class
    with [deleteVersion] and [updateVersion]), of the commands
    [llmcheckpoint.quickClean] and [llmcheckpoint.clearAll], of
    [handleGitCommit] and of the [onWillSaveTextDocument] handler
    (src/unnamed/part_000), and of [appendVersionToFile]
    (src/unnamed/part_001).

    The sql.js database is modelled as its tables: [files] and [versions]
    as lists of rows in rowid order, with the [sqlite_sequence] counters of
    the two AUTOINCREMENT keys.  Every SQL statement is a function of the
    store; a statement that violates a constraint raises and leaves the
    store as it was (SQLite statements are atomic), while a TypeScript
    function that runs several statements and raises half-way leaves the
    statements already run in place.  That is the monad [DB] below: a state
    monad whose error case keeps the store reached so far.

    db/schema.ts runs [PRAGMA foreign_keys = ON]; whether the constraints
    are enforced is the section variable [foreign_keys], so that every
    result is stated for both settings.  [files.current_version_id]
    references [versions(id)] with no ON DELETE action, so with the
    pragma on, deleting a row that a file points to fails. *)

From Stdlib Require Import List String Ascii Bool Arith Lia Permutation Sorted.
Import ListNotations.

(** ** Rows and the store *)

(** [FileRecord] of db/schema.ts: the columns [id], [file_path],
    [current_version_id]. *)
Record FileRecord := mkFileRecord {
  fr_id : nat;
  file_path : string;
  current_version_id : option nat
}.

(** [VersionRecord] as [mapVersionRecord] reads it: [id], [file_id],
    [content], [version_number], [label] (NULL until [updateVersion]).
    The [timestamp] column, filled by [datetime('now')], is left out: no
    statement below reads it. *)
Record VersionRecord := mkVersionRecord {
  vr_id : nat;
  file_id : nat;
  content : string;
  version_number : nat;
  label : option string
}.

Record store := mkStore {
  files : list FileRecord;
  versions : list VersionRecord;
  files_seq : nat;      (** sqlite_sequence entry of [files] *)
  versions_seq : nat    (** sqlite_sequence entry of [versions] *)
}.

Definition with_files (fs : list FileRecord) (st : store) : store :=
  mkStore fs (versions st) (files_seq st) (versions_seq st).

Definition with_versions (vs : list VersionRecord) (st : store) : store :=
  mkStore (files st) vs (files_seq st) (versions_seq st).

Definition empty_store : store := mkStore [] [] 0 0.

(** ** The statement monad *)

(** Errors raised by sql.js: [UniqueViolation] is SQLite's
    "UNIQUE constraint failed" (the spec's DuplicateKey),
    [ForeignKeyViolation] its "FOREIGN KEY constraint failed". *)
Inductive db_error := UniqueViolation | ForeignKeyViolation.

Inductive result (A : Type) : Type :=
| Ok (a : A) (st : store)
| Err (e : db_error) (st : store).
Arguments Ok {A} a st.
Arguments Err {A} e st.

Definition DB (A : Type) : Type := store -> result A.

Definition ret {A} (a : A) : DB A := fun st => Ok a st.

Definition bind {A B} (m : DB A) (k : A -> DB B) : DB B :=
  fun st => match m st with
            | Ok a st' => k a st'
            | Err e st' => Err e st'
            end.

Notation "x <- m ;; k" := (bind m (fun x => k))
  (at level 61, m at next level, right associativity).

(** A read-only query. *)
Definition query {A} (q : store -> A) : DB A := fun st => Ok (q st) st.

(** [for (const x of l) { await f(x); }] *)
Fixpoint forM_ {A} (l : list A) (f : A -> DB unit) : DB unit :=
  match l with
  | [] => ret tt
  | x :: l' => _ <- f x ;; forM_ l' f
  end.

(** [try { m } catch (error) { console.error(...) }] *)
Definition try_catch (m : DB unit) : DB unit :=
  fun st => match m st with
            | Ok a st' => Ok a st'
            | Err _ st' => Ok tt st'
            end.

(** AUTOINCREMENT: the new rowid is one more than the larger of the
    sqlite_sequence entry and the largest rowid in the table. *)
Definition next_rowid (seq : nat) (ids : list nat) : nat :=
  S (fold_right Nat.max seq ids).

(** ** Queries *)

Definition getAllFiles (st : store) : list FileRecord := files st.

Definition getFile (filePath : string) (st : store) : option FileRecord :=
  find (fun f => String.eqb (file_path f) filePath) (files st).

Definition getFileById (fileId : nat) (st : store) : option FileRecord :=
  find (fun f => Nat.eqb (fr_id f) fileId) (files st).

Definition getVersion (versionId : nat) (st : store) : option VersionRecord :=
  find (fun v => Nat.eqb (vr_id v) versionId) (versions st).

(** [ORDER BY version_number DESC], as an insertion sort. *)
Fixpoint insert_desc (v : VersionRecord) (l : list VersionRecord)
  : list VersionRecord :=
  match l with
  | [] => [v]
  | w :: l' =>
      if Nat.leb (version_number w) (version_number v) then v :: l
      else w :: insert_desc v l'
  end.

Definition sort_desc (l : list VersionRecord) : list VersionRecord :=
  fold_right insert_desc [] l.

Definition versions_of (fileId : nat) (vs : list VersionRecord)
  : list VersionRecord :=
  filter (fun v => Nat.eqb (file_id v) fileId) vs.

(** [getFileVersions(fileId, limit = 10)]:
    [SELECT ... WHERE file_id = ? ORDER BY version_number DESC LIMIT ?]. *)
Definition getFileVersions (fileId limit : nat) (st : store)
  : list VersionRecord :=
  firstn limit (sort_desc (versions_of fileId (versions st))).

(** [SELECT COALESCE(MAX(version_number), 0) FROM versions WHERE file_id = ?] *)
Definition max_version (fileId : nat) (vs : list VersionRecord) : nat :=
  fold_right Nat.max 0 (map version_number (versions_of fileId vs)).

Section Statements.

Variable foreign_keys : bool.

Definition file_exists (fileId : nat) (st : store) : bool :=
  existsb (fun f => Nat.eqb (fr_id f) fileId) (files st).

Definition version_exists (versionId : nat) (st : store) : bool :=
  existsb (fun v => Nat.eqb (vr_id v) versionId) (versions st).

Definition points_to (versionId : nat) (f : FileRecord) : bool :=
  match current_version_id f with
  | Some c => Nat.eqb c versionId
  | None => false
  end.

(** ** Statements *)

(** The row update of [SET current_version_id = ? WHERE id = ?]. *)
Definition set_current (fileId versionId : nat) (f : FileRecord) : FileRecord :=
  if Nat.eqb (fr_id f) fileId
  then mkFileRecord (fr_id f) (file_path f) (Some versionId)
  else f.

(** [INSERT INTO files (file_path) VALUES (?)]; [file_path] is UNIQUE. *)
Definition insertFile (filePath : string) : DB FileRecord := fun st =>
  if existsb (fun f => String.eqb (file_path f) filePath) (files st)
  then Err UniqueViolation st
  else
    let i := next_rowid (files_seq st) (map fr_id (files st)) in
    let r := mkFileRecord i filePath None in
    Ok r (mkStore (files st ++ [r]) (versions st) i (versions_seq st)).

(** [INSERT INTO versions (file_id, content, version_number) VALUES (?, ?, ?)]:
    [UNIQUE(file_id, version_number)], and [file_id] references [files(id)].
    Returns the inserted row (the [SELECT ... WHERE id = last_insert_rowid()]). *)
Definition insertVersion (fileId : nat) (c : string) (vn : nat)
  : DB VersionRecord := fun st =>
  if existsb (fun v => Nat.eqb (file_id v) fileId && Nat.eqb (version_number v) vn)
       (versions st)
  then Err UniqueViolation st
  else if foreign_keys && negb (file_exists fileId st)
  then Err ForeignKeyViolation st
  else
    let i := next_rowid (versions_seq st) (map vr_id (versions st)) in
    let v := mkVersionRecord i fileId c vn None in
    Ok v (mkStore (files st) (versions st ++ [v]) (files_seq st) i).

(** [UPDATE files SET current_version_id = ? WHERE id = ?] *)
Definition setCurrentVersion (fileId versionId : nat) : DB unit := fun st =>
  if foreign_keys && negb (version_exists versionId st)
  then Err ForeignKeyViolation st
  else
    Ok tt (with_files (map (set_current fileId versionId) (files st)) st).

(** [DELETE FROM versions WHERE id = ?]: with the foreign keys enforced, a
    row that some [files.current_version_id] references cannot go. *)
Definition deleteVersion (versionId : nat) : DB unit := fun st =>
  if foreign_keys && version_exists versionId st
     && existsb (points_to versionId) (files st)
  then Err ForeignKeyViolation st
  else
    Ok tt (with_versions
             (filter (fun v => negb (Nat.eqb (vr_id v) versionId)) (versions st)) st).

(** [UPDATE versions SET content = ?, label = ? WHERE id = ?] *)
Definition updateVersion (versionId : nat) (newContent newLabel : string)
  : DB unit := fun st =>
  Ok tt (with_versions
           (map (fun v => if Nat.eqb (vr_id v) versionId
                          then mkVersionRecord (vr_id v) (file_id v) newContent
                                 (version_number v) (Some newLabel)
                          else v) (versions st)) st).

(** ** [FileVersionDB] methods *)

Definition createFile (filePath : string) : DB FileRecord :=
  insertFile filePath.

Definition createVersion (fileId : nat) (c : string) : DB VersionRecord :=
  maxVersion <- query (fun st => max_version fileId (versions st)) ;;
  let nextVersion := maxVersion + 1 in
  versionResult <- insertVersion fileId c nextVersion ;;
  _ <- setCurrentVersion fileId (vr_id versionResult) ;;
  ret versionResult.

End Statements.

(** ** Bulk commands (src/unnamed/part_000) *)

Section Commands.

Variable foreign_keys : bool.

(** [llmcheckpoint.quickClean], after the modal answer 'Yes': for every file,
    [versions = getFileVersions(file.id)] (default limit 10) and, when there
    are more than one, [deleteVersion(versions[i].id)] for [i = 1 ..].
    The command has no try/catch: an error stops it where it is. *)
Definition quickClean : DB unit :=
  allFiles <- query getAllFiles ;;
  forM_ allFiles (fun file =>
    vs <- query (getFileVersions (fr_id file) 10) ;;
    (if Nat.ltb 1 (List.length vs)
     then forM_ (List.tl vs) (fun v => deleteVersion foreign_keys (vr_id v))
     else ret tt)).

(** [llmcheckpoint.clearAll], after the modal answer 'Yes'. *)
Definition clearAll : DB unit :=
  allFiles <- query getAllFiles ;;
  forM_ allFiles (fun file =>
    vs <- query (getFileVersions (fr_id file) 10) ;;
    forM_ vs (fun v => deleteVersion foreign_keys (vr_id v))).

End Commands.

(** ** [handleGitCommit] (src/unnamed/part_000, lines 31-86) *)

Definition nl : ascii := Ascii.ascii_of_nat 10.
Definition cr : ascii := Ascii.ascii_of_nat 13.

(** [str.trim() === ''] on ASCII text: only spaces, tabs, line feeds,
    vertical tabs, form feeds and carriage returns. *)
Fixpoint is_blank (s : string) : bool :=
  match s with
  | EmptyString => true
  | String a s' =>
      let n := Ascii.nat_of_ascii a in
      (Nat.eqb n 32 || (Nat.leb 9 n && Nat.leb n 13)) && is_blank s'
  end.

(** Splits at the first line terminator of the JavaScript regular
    expression dot ([\n] or [\r]): the run of other characters, and the
    rest from the terminator on. *)
Fixpoint take_line (s : string) : string * string :=
  match s with
  | EmptyString => (EmptyString, EmptyString)
  | String a s' =>
      if Ascii.eqb a nl || Ascii.eqb a cr then (EmptyString, s)
      else let (seg, rest) := take_line s' in (String a seg, rest)
  end.

Definition ends_with (suffix s : string) : bool :=
  Nat.leb (String.length suffix) (String.length s) &&
  String.eqb (String.substring (String.length s - String.length suffix)
                (String.length suffix) s) suffix.

Definition marker_prefix : string := "/* Git commit:".
Definition marker_close : string := "*/".

(** One left-to-right pass of [s.replace(/\/\* Git commit:.*\*\/\n/g, '')].
    At a position where ["/* Git commit:"] starts, the greedy [.*] followed
    by [\*\/\n] matches iff the rest of that line (up to the first
    terminator) ends with ["*/"] and the terminator is ["\n"]; the match is
    removed and the scan resumes after it.  Elsewhere one character is
    kept.  [fuel] bounds the number of steps (each consumes a character). *)
Fixpoint strip_markers_fuel (fuel : nat) (s : string) : string :=
  match fuel with
  | 0 => s
  | S fuel' =>
      match s with
      | EmptyString => EmptyString
      | String a s' =>
          let keep := String a (strip_markers_fuel fuel' s') in
          if String.prefix marker_prefix s then
            let rest := String.substring (String.length marker_prefix)
                          (String.length s) s in
            match take_line rest with
            | (seg, String t after) =>
                if Ascii.eqb t nl && ends_with marker_close seg
                then strip_markers_fuel fuel' after
                else keep
            | (_, EmptyString) => keep
            end
          else keep
      end
  end.

Definition strip_commit_markers (s : string) : string :=
  strip_markers_fuel (String.length s) s.

(** [`/* Git commit: ${commitMessage} */\n${...}`] *)
Definition labelled_content (commitMessage old : string) : string :=
  String.append "/* Git commit: "
    (String.append commitMessage
       (String.append " */" (String (nl) (strip_commit_markers old)))).

Section GitCommit.

Variable foreign_keys : bool.
(** Node's [path.normalize]. *)
Variable normalize : string -> string.

(** [handleGitCommit(workspacePath, repository, changedFiles, commitMessage)]:
    [commitHash] is [repository.state.HEAD?.commit], [autoCleanup] the value
    of [settingsManager.getAutoCleanupAfterCommit()].  Tree refreshes and
    information messages are left out.  The whole body is in a try/catch. *)
Definition handleGitCommit (changedFiles : list string)
    (commitHash commitMessage : option string) (autoCleanup : bool) : DB unit :=
  try_catch
    match commitHash, commitMessage with
    | Some h, Some msg =>
        if String.eqb h "" || is_blank msg then ret tt else
        allFiles <- query getAllFiles ;;
        forM_ allFiles (fun file =>
          if negb (existsb (String.eqb (normalize (file_path file))) changedFiles)
          then ret tt
          else
            (vs <- query (getFileVersions (fr_id file) 10) ;;
             match vs with
             | [] => ret tt
             | latestVersion :: _ =>
                 let newContent := labelled_content msg (content latestVersion) in
                 _ <- updateVersion (vr_id latestVersion) newContent msg ;;
                 (if autoCleanup
                  then forM_ vs (fun v => deleteVersion foreign_keys (vr_id v))
                  else ret tt)
             end))
    | _, _ => ret tt
    end.

End GitCommit.

(** ** The save handler and its line diff *)

(** [content.split('\n')] *)
Fixpoint split_nl (s : string) : list string :=
  match s with
  | EmptyString => [EmptyString]
  | String a s' =>
      if Ascii.eqb a nl then EmptyString :: split_nl s'
      else match split_nl s' with
           | [] => [String a EmptyString]
           | l :: ls => String a l :: ls
           end
  end.

(** The tokens of jsdiff's line diff: each line with its ["\n"], the last
    one without it when the text does not end in a newline; no token for
    the empty text. *)
Fixpoint terminate_lines (ls : list string) : list string :=
  match ls with
  | [] => []
  | [l] => if String.eqb l "" then [] else [l]
  | l :: ls' => String.append l (String nl EmptyString) :: terminate_lines ls'
  end.

Definition diff_lines (s : string) : list string := terminate_lines (split_nl s).

(** An edit script between two token lists, as jsdiff's [diffLines] returns
    it (runs of common, removed and added tokens). *)
Inductive edit := Keep (t : string) | Del (t : string) | Ins (t : string).

(** [es] turns [old] into [new]. *)
Fixpoint script_ok (es : list edit) (old new : list string) : bool :=
  match es, old, new with
  | [], [], [] => true
  | Keep t :: es', o :: os, n :: ns => String.eqb t o && String.eqb t n && script_ok es' os ns
  | Del t :: es', o :: os, _ => String.eqb t o && script_ok es' os new
  | Ins t :: es', _, n :: ns => String.eqb t n && script_ok es' old ns
  | _, _, _ => false
  end.

Definition is_change (e : edit) : bool :=
  match e with Keep _ => false | _ => true end.

(** A shortest edit script, by exhaustive search over the two lists (jsdiff
    finds one with Myers' algorithm; on inputs without common tokens every
    script deletes all old tokens and inserts all new ones). *)
Fixpoint shortest_script (old : list string) : list string -> list edit :=
  match old with
  | [] => fun nw => map Ins nw
  | o :: os =>
      fix go (nw : list string) : list edit :=
        match nw with
        | [] => map Del old
        | n :: ns =>
            if String.eqb o n then Keep o :: shortest_script os ns
            else
              let d := Del o :: shortest_script os nw in
              let i := Ins n :: go ns in
              if Nat.leb (List.length (filter is_change d))
                         (List.length (filter is_change i))
              then d else i
        end
  end.

Definition strip_nl (t : string) : string :=
  if ends_with (String nl EmptyString) t
  then String.substring 0 (String.length t - 1) t else t.

Definition no_newline_marker : string := "\ No newline at end of file".

(** The lines a token contributes to the patch text. *)
Definition render (mark : ascii) (t : string) : list string :=
  String mark (strip_nl t) ::
  (if ends_with (String nl EmptyString) t then [] else [no_newline_marker]).

Definition render_edit (e : edit) : list string :=
  match e with
  | Keep t => render " " t
  | Del t => render "-" t
  | Ins t => render "+" t
  end.

Section SaveHandler.

Variable foreign_keys : bool.
(** jsdiff's line diff on token lists. *)
Variable line_diff : list string -> list string -> list edit.

(** [createPatch(fileName, oldStr, newStr).split('\n')]: the header lines
    and one or two lines per edit.  The [@@ ... @@] hunk headers and the
    cut of common lines to 4 around each change are left out: those lines
    start with ['@'] or [' '] and the filter below drops them anyway. *)
Definition createPatch (fileName oldStr newStr : string) : list string :=
  [String.append "Index: " fileName;
   "==================================================================="%string;
   String.append "--- " fileName;
   String.append "+++ " fileName] ++
  flat_map render_edit (line_diff (diff_lines oldStr) (diff_lines newStr)).

(** [.filter(line => line.startsWith('+') || line.startsWith('-'))
     .filter(line => !line.startsWith('+++') && !line.startsWith('---'))] *)
Definition patch_changes (patch : list string) : list string :=
  filter (fun line => negb (String.prefix "+++" line) && negb (String.prefix "---" line))
    (filter (fun line => String.prefix "+" line || String.prefix "-" line) patch).

(** The [if (!saveAllChanges)] block: [true] when the save goes on to
    [createVersion]; [latest] is [getFileVersions(file.id, 1)]. *)
Definition significant_change (latest : list VersionRecord) (c : string) : bool :=
  match latest with
  | [] => Nat.ltb 1 (List.length (split_nl c))
  | v :: _ => Nat.ltb 2 (List.length (patch_changes (createPatch "file" (content v) c)))
  end.

(** The part of the [onWillSaveTextDocument] handler after the file record
    is found or created: [saveAllChanges] is the setting read by
    [settingsManager.getSaveAllChanges()]. *)
Definition saveWithFile (saveAllChanges : bool) (file : FileRecord) (c : string)
  : DB unit :=
  vs <- query (getFileVersions (fr_id file) 1) ;;
  if match vs with v :: _ => String.eqb (content v) c | [] => false end
  then ret tt
  else if negb saveAllChanges && negb (significant_change vs c)
  then ret tt
  else (_ <- createVersion foreign_keys (fr_id file) c ;; ret tt).

(** The [onWillSaveTextDocument] handler for a document at [relativePath]
    whose text is [c].  The whole body is in a try/catch. *)
Definition onWillSave (saveAllChanges : bool) (relativePath c : string) : DB unit :=
  try_catch
    (existing <- query (getFile relativePath) ;;
     file <- (match existing with
              | Some f => ret f
              | None => createFile relativePath
              end) ;;
     saveWithFile saveAllChanges file c).

End SaveHandler.

(** ** Append to the history file (src/unnamed/part_001, lines 843-887) *)

(** The workspace folder as a tree of files and directories, keyed by
    workspace-relative path ([vscode.Uri.joinPath(workspaceFolder.uri, p)]
    is the file at [p]). *)
Inductive node := FileNode (data : string) | DirNode.

Definition fs := list (string * node).

Inductive fs_error := MissingContent | NoWorkspace | NotADirectory | IsADirectory.

(** [vscode.workspace.fs.stat]: [None] when it throws. *)
Definition stat (p : string) (m : fs) : option node :=
  match find (fun e => String.eqb (fst e) p) m with
  | Some (_, n) => Some n
  | None => None
  end.

Definition fs_set (p : string) (n : node) (m : fs) : fs :=
  (p, n) :: filter (fun e => negb (String.eqb (fst e) p)) m.

(** [fs.promises.mkdir(directory, { recursive: true })], with Node's
    [path.dirname] as [dirname]: nothing to do when the directory exists;
    it throws when a file is in the way, on the directory itself (EEXIST) or
    on one of its ancestors (ENOTDIR); otherwise it creates the missing
    ancestors, outermost first, then the directory.  The root, the path
    that is its own [dirname], is a directory.  [fuel] bounds the number of
    ancestors visited ([mkdir_recursive] gives one per character of the
    path, more than a [dirname] that shortens the path needs). *)
Fixpoint mkdir_p (dirname : string -> string) (fuel : nat) (d : string) (m : fs)
  : fs_error + fs :=
  match stat d m with
  | Some (FileNode _) => inl NotADirectory
  | Some DirNode => inr m
  | None =>
      match fuel with
      | S n =>
          if String.eqb (dirname d) d then inr (fs_set d DirNode m)
          else match mkdir_p dirname n (dirname d) m with
               | inl e => inl e
               | inr m1 => inr (fs_set d DirNode m1)
               end
      | 0 => inr (fs_set d DirNode m)
      end
  end.

Definition mkdir_recursive (dirname : string -> string) (d : string) (m : fs)
  : fs_error + fs :=
  mkdir_p dirname (String.length d) d m.

(** [fs.promises.appendFile(p, data, 'utf8')]: creates the file when absent. *)
Definition appendFile (p data : string) (m : fs) : fs_error + fs :=
  match stat p m with
  | Some DirNode => inl IsADirectory
  | Some (FileNode old) => inr (fs_set p (FileNode (String.append old data)) m)
  | None => inr (fs_set p (FileNode data) m)
  end.

Definition default_history_file : string := "history_context.txt".

Definition ends_with_separator (p : string) : bool :=
  ends_with "/" p || ends_with (String (Ascii.ascii_of_nat 92) EmptyString) p.

Section Append.

(** Node's [path.join] and [path.dirname]. *)
Variable path_join : string -> string -> string.
Variable dirname : string -> string.

(** The destination [finalPath] computed from the configured [filePath]. *)
Definition resolve_path (filePath : string) (m : fs) : string :=
  match stat filePath m with
  | Some DirNode => path_join filePath default_history_file
  | Some (FileNode _) => filePath
  | None =>
      if ends_with_separator filePath
      then path_join filePath default_history_file
      else filePath
  end.

(** [`\n\nVersion from ${finalPath}\n\n${version.content}`] *)
Definition appended_block (finalPath c : string) : string :=
  String nl (String nl
    (String.append "Version from "
       (String.append finalPath (String nl (String nl c))))).

(** [appendVersionToFile(version, filePath)]; [workspace] is
    [vscode.workspace.workspaceFolders?.[0]]. *)
Definition appendVersionToFile (workspace : option string)
    (version : VersionRecord) (filePath : string) (m : fs) : fs_error + fs :=
  if String.eqb (content version) "" then inl MissingContent else
  match workspace with
  | None => inl NoWorkspace
  | Some _ =>
      let finalPath := resolve_path filePath m in
      match mkdir_recursive dirname (dirname finalPath) m with
      | inl e => inl e
      | inr m1 => appendFile finalPath (appended_block finalPath (content version)) m1
      end
  end.

End Append.

(** A POSIX [path.join] and [path.dirname] for plain relative paths (no
    ["."] or [".."] segments, no repeated separators), used in the
    concrete runs below. *)
Definition posix_join (a b : string) : string :=
  if ends_with "/" a then String.append a b else String.append a (String.append "/" b).

Fixpoint last_slash (s : string) (i : nat) (acc : option nat) : option nat :=
  match s with
  | EmptyString => acc
  | String a s' => last_slash s' (S i) (if Ascii.eqb a "/" then Some i else acc)
  end.

Definition posix_dirname (p : string) : string :=
  match last_slash p 0 None with
  | None => "."
  | Some 0 => "/"
  | Some i => String.substring 0 i p
  end.

(** ** Runs *)

(** [N] calls [createVersion(fileId, c_k)], each followed by a read of the
    file's [current_version_id] ([getFileById]); the trace pairs every
    created row with the pointer read right after it. *)
Fixpoint createVersions (foreign_keys : bool) (fileId : nat) (cs : list string)
  : DB (list (VersionRecord * option (option nat))) :=
  match cs with
  | [] => ret []
  | c :: cs' =>
      v <- createVersion foreign_keys fileId c ;;
      cur <- query (fun st => option_map current_version_id (getFileById fileId st)) ;;
      rest <- createVersions foreign_keys fileId cs' ;;
      ret ((v, cur) :: rest)
  end.

Definition final_store {A} (r : result A) : store :=
  match r with Ok _ st => st | Err _ st => st end.

(** [seq] of DB actions, keeping the final store. *)
Definition run_all (foreign_keys : bool) (actions : list (DB unit)) (st : store) : store :=
  final_store (forM_ actions (fun a => a) st).

(** A store holding the single file ["a.txt"] and no snapshot. *)
Definition store_one_file : store :=
  mkStore [mkFileRecord 1 "a.txt" None] [] 1 0.

(** ["a.txt"] with the snapshots ["v1"] (id 1) and ["v2"] (id 2, current). *)
Definition store_two_snapshots : store :=
  final_store (createVersions false 1 ["v1"; "v2"]%string store_one_file).

(** ["a.txt"] with three snapshots, version numbers 1, 2, 3 (ids 1, 2, 3). *)
Definition store_three_snapshots (fk : bool) : store :=
  final_store (createVersions fk 1 ["v1"; "v2"; "v3"]%string store_one_file).

(** A store whose file ["a.txt"] points at its snapshot 1 and also has a
    snapshot with version number 3 (id 3); version number 2 is gone. *)
Definition store_gap : store :=
  mkStore [mkFileRecord 1 "a.txt" (Some 1)]
          [mkVersionRecord 1 1 "v1" 1 None; mkVersionRecord 3 1 "v3" 3 None] 1 3.

Definition created_number (r : result VersionRecord) : option nat :=
  match r with Ok v _ => Some (version_number v) | Err _ _ => None end.

(** ["a.txt"] (id 1) with [n] snapshots, version numbers [1 .. n]. *)
Definition store_n_snapshots (fk : bool) (n : nat) : store :=
  final_store (createVersions fk 1 (repeat "x"%string n) store_one_file).

(** The version numbers of [fileId] once an action has completed. *)
Definition numbers_after (fileId : nat) (r : result unit) : option (list nat) :=
  match r with
  | Ok _ st => Some (map version_number (versions_of fileId (versions st)))
  | Err _ _ => None
  end.

(** ["a.txt"] (id 1) with snapshots v1, v2, v3 and ["b.txt"] (id 2) with
    w1, w2. *)
Definition store_a_b (fk : bool) : store :=
  final_store
    ((_ <- createFile "a.txt" ;; _ <- createFile "b.txt" ;;
      _ <- createVersions fk 1 ["v1"; "v2"; "v3"]%string ;;
      _ <- createVersions fk 2 ["w1"; "w2"]%string ;; ret tt) empty_store).

(** A workspace with the directory ["out"] and the file ["out/h.txt"]. *)
Definition fs_history : fs :=
  [("out/h.txt", FileNode "old"); ("out", DirNode)]%string.

(** ["a.txt"] with one snapshot, content ["x"]. *)
Definition store_x : store :=
  final_store (createVersion false 1 "x" store_one_file).

(** A three-line candidate whose lines all start with ["++"]. *)
Definition plus_plus_text : string :=
  String.append "++a" (String nl (String.append "++b" (String nl "++c"))).

(** ** More of [FileVersionDB] (src/src/db/index.ts) *)

(** [getCurrentVersion(fileId)]:
    [SELECT v.* FROM versions v JOIN files f ON f.current_version_id = v.id
     WHERE f.id = ?], its first row. *)
Definition getCurrentVersion (fileId : nat) (st : store) : option VersionRecord :=
  match getFileById fileId st with
  | Some f =>
      match current_version_id f with
      | Some c => getVersion c st
      | None => None
      end
  | None => None
  end.

(** The [repository_commits] table, [(repo_path, commit_hash)] rows;
    [repo_path] is its PRIMARY KEY. *)
Definition commits := list (string * string).

(** [saveLastCommitForRepo(repoPath, commitHash)]:
    [INSERT OR REPLACE INTO repository_commits (repo_path, commit_hash)
     VALUES (?, ?)]: the row with that key, if any, is deleted and the new
    row inserted. *)
Definition saveLastCommitForRepo (repoPath commitHash : string) (t : commits) : commits :=
  filter (fun r => negb (String.eqb (fst r) repoPath)) t ++ [(repoPath, commitHash)].

(** [getLastCommitForRepo(repoPath)]:
    [SELECT commit_hash FROM repository_commits WHERE repo_path = ? LIMIT 1],
    [null] when there is no row. *)
Definition getLastCommitForRepo (repoPath : string) (t : commits) : option string :=
  option_map snd (find (fun r => String.eqb (fst r) repoPath) t).

(** ** [saveCurrentVersion] (src/unnamed/part_000, lines 286-314) *)

(** The active editor's document: [vscode.workspace.asRelativePath(document.uri)],
    [document.getText()] and [document.isDirty]. *)
Record editor_doc := mkEditorDoc {
  doc_path : string;
  doc_text : string;
  doc_dirty : bool
}.

(** [saveCurrentVersion()], the [llmcheckpoint.saveVersion] command;
    [editor] is [vscode.window.activeTextEditor].  The warning and the tree
    refresh are left out.  The whole body is in a try/catch. *)
Definition saveCurrentVersion (foreign_keys : bool) (editor : option editor_doc)
  : DB unit :=
  try_catch
    match editor with
    | None => ret tt
    | Some document =>
        if negb (doc_dirty document) then ret tt else
        let relativePath := doc_path document in
        existing <- query (getFile relativePath) ;;
        file <- (match existing with
                 | Some f => ret f
                 | None => createFile relativePath
                 end) ;;
        _ <- createVersion foreign_keys (fr_id file) (doc_text document) ;;
        ret tt
    end.

(** ** The repository watcher (src/unnamed/part_000, lines 412-470) *)

(** A character [String.prototype.trim] removes, on ASCII text. *)
Definition js_space (a : ascii) : bool :=
  let n := Ascii.nat_of_ascii a in Nat.eqb n 32 || (Nat.leb 9 n && Nat.leb n 13).

Fixpoint drop_spaces (l : list ascii) : list ascii :=
  match l with
  | [] => []
  | a :: l' => if js_space a then drop_spaces l' else l
  end.

(** [s.trim()] *)
Definition trim (s : string) : string :=
  string_of_list_ascii
    (rev (drop_spaces (rev (drop_spaces (list_ascii_of_string s))))).

Section Watcher.

Variable foreign_keys : bool.
(** Node's [path.normalize], as in [handleGitCommit]. *)
Variable normalize : string -> string.
(** [filePath => path.normalize(vscode.workspace.asRelativePath(
      path.join(repoPath, filePath)))] *)
Variable relative_to_repo : string -> string -> string.

(** [changedFiles], from the output of
    [git log --name-only --pretty=format: last..current]:
    [stdout.split('\n').map(line => line.trim()).filter(line => line.length > 0)
     .map(...)], kept as a list (the [Set] is only asked [has] and [size]). *)
Definition changed_files (repoPath stdout : string) : list string :=
  map (relative_to_repo repoPath)
    (filter (fun line => Nat.ltb 0 (String.length line)) (map trim (split_nl stdout))).

(** What one tick of the poll reads and writes: the closure's
    [lastKnownCommit], the database's snapshot tables and its
    [repository_commits] table. *)
Record watcher := mkWatcher {
  lastKnownCommit : string;
  db : store;
  repo_commits : commits
}.

(** One tick of the [setInterval] callback of [setupRepositoryWatcher].
    [head] is [repository.state.HEAD?.commit] (read once per tick),
    [gitLog] the output of the [git log] command ([None] when [execAsync]
    throws), [message] the result of [getLatestCommitMessage(repoPath)]
    (['' ] when its command fails) and [autoCleanup] the setting read in
    [handleGitCommit].  [handleGitCommit] and [saveLastCommitForRepo]
    catch their own errors. *)
Definition poll (head : option string) (repoPath : string) (gitLog : option string)
    (message : string) (autoCleanup : bool) (w : watcher) : watcher :=
  let currentCommit := match head with Some h => h | None => ""%string end in
  if String.eqb currentCommit "" || String.eqb currentCommit (lastKnownCommit w)
  then w
  else
    match gitLog with
    | None => w
    | Some stdout =>
        match changed_files repoPath stdout with
        | [] => mkWatcher currentCommit (db w) (repo_commits w)
        | changed =>
            let st' := final_store (handleGitCommit foreign_keys normalize changed head
                                      (Some message) autoCleanup (db w)) in
            mkWatcher currentCommit st' (saveLastCommitForRepo repoPath currentCommit (repo_commits w))
        end
    end.

End Watcher.

(** ** [exportVersionToFile] (src/unnamed/part_001, lines 728-787) *)

(** [fs.promises.writeFile(p, data, 'utf8')]: creates or replaces the file. *)
Definition writeFile (p data : string) (m : fs) : fs_error + fs :=
  match stat p m with
  | Some DirNode => inl IsADirectory
  | _ => inr (fs_set p (FileNode data) m)
  end.

(** [`Version from ${finalPath}\n\n${version.content}`] *)
Definition exported_block (finalPath c : string) : string :=
  String.append "Version from " (String.append finalPath (String nl (String nl c))).

Section ExportVersion.

Variable path_join : string -> string -> string.
Variable dirname : string -> string.

(** [exportVersionToFile(version, filePath)]: the same checks and the same
    destination as [appendVersionToFile], then [writeFile]. *)
Definition exportVersionToFile (workspace : option string)
    (version : VersionRecord) (filePath : string) (m : fs) : fs_error + fs :=
  if String.eqb (content version) "" then inl MissingContent else
  match workspace with
  | None => inl NoWorkspace
  | Some _ =>
      let finalPath := resolve_path path_join filePath m in
      match mkdir_recursive dirname (dirname finalPath) m with
      | inl e => inl e
      | inr m1 => writeFile finalPath (exported_block finalPath (content version)) m1
      end
  end.

End ExportVersion.

(** ** [VersionTreeProvider.getChildren] (src/unnamed/part_001, lines 651-706) *)

(** [Array.prototype.map] with the index. *)
Fixpoint map_index_from {A B} (f : nat -> A -> B) (i : nat) (l : list A) : list B :=
  match l with
  | [] => []
  | x :: l' => f i x :: map_index_from f (S i) l'
  end.

(** The root level: [allFiles.filter(file => getFileVersions(file.id).length > 0)]. *)
Definition tree_files (st : store) : list FileRecord :=
  filter (fun file => Nat.ltb 0 (List.length (getFileVersions (fr_id file) 10 st)))
    (getAllFiles st).

(** The children of a file item whose [versions] are [vs]: for the
    [index]-th, [timeAgo = versions.length - index] and the word
    ['prompt'] or ['prompts'] of its label, with the version it opens. *)
Definition tree_children (vs : list VersionRecord) : list (nat * string * VersionRecord) :=
  map_index_from (fun index version =>
    let timeAgo := List.length vs - index in
    (timeAgo, (if Nat.eqb timeAgo 1 then "prompt" else "prompts")%string, version)) 0 vs.

(** ** Text predicates used in the statements below *)

(** No [\n] or [\r] in the text: a commit message on one line. *)
Fixpoint no_line_terminator (s : string) : bool :=
  match s with
  | EmptyString => true
  | String a s' => negb (Ascii.eqb a nl || Ascii.eqb a cr) && no_line_terminator s'
  end.

(** [s.includes(p)] *)
Fixpoint occurs (p s : string) : bool :=
  match s with
  | EmptyString => String.prefix p EmptyString
  | String a s' => String.prefix p s || occurs p s'
  end.

(** The body of the loop of [handleGitCommit] for one file record. *)
Definition commit_step (foreign_keys : bool) (normalize : string -> string)
    (changedFiles : list string) (msg : string) (autoCleanup : bool)
    (file : FileRecord) : DB unit :=
  if negb (existsb (String.eqb (normalize (file_path file))) changedFiles)
  then ret tt
  else
    (vs <- query (getFileVersions (fr_id file) 10) ;;
     match vs with
     | [] => ret tt
     | latestVersion :: _ =>
         let newContent := labelled_content msg (content latestVersion) in
         _ <- updateVersion (vr_id latestVersion) newContent msg ;;
         (if autoCleanup
          then forM_ vs (fun v => deleteVersion foreign_keys (vr_id v))
          else ret tt)
     end).

(** [ORDER BY version_number DESC] as a relation. *)
Definition desc (a b : VersionRecord) : Prop := version_number b <= version_number a.

(** What [quickClean] keeps along the way: the [files] table, no new
    row, distinct version ids, and for every file that had a snapshot
    in [st0] a snapshot carrying its highest version number in [st0]. *)
Definition keeps_latest (st0 s : store) : Prop :=
  files s = files st0 /\ NoDup (map vr_id (versions s)) /\
  incl (versions s) (versions st0) /\
  (forall v, In v (versions st0) ->
     exists w, In w (versions s) /\ file_id w = file_id v /\
       version_number w = max_version (file_id v) (versions st0)).

(** Row skeleton: id, file and version number. *)
Definition skel (v : VersionRecord) : nat * nat * nat := (vr_id v, file_id v, version_number v).

(** The state of the loop of [handleGitCommit] without auto-cleanup,
    seen from the row [w0] of [st]: rows with the ids, files and numbers
    of [st], and the row [w0] either still as it was or already labelled
    with [msg]. *)
Definition relabel_inv (msg : string) (st : store) (w0 : VersionRecord) (done : bool)
    (s : store) : Prop :=
  map skel (versions s) = map skel (versions st) /\
  getVersion (vr_id w0) s =
    Some (if done
          then mkVersionRecord (vr_id w0) (file_id w0) (labelled_content msg (content w0))
                 (version_number w0) (Some msg)
          else w0).

(** * Proofs *)

(** ** Lists of rows *)

Lemma fold_max_app_single (l : list nat) (x : nat) :
  fold_right Nat.max 0 (l ++ [x]) = Nat.max (fold_right Nat.max 0 l) x.
Proof. induction l as [|y l IH]; simpl; [lia | rewrite IH; lia]. Qed.

Lemma max_version_snoc (fid : nat) (vs : list VersionRecord) (v : VersionRecord) :
  file_id v = fid ->
  max_version fid (vs ++ [v]) = Nat.max (max_version fid vs) (version_number v).
Proof.
  intros Hf. unfold max_version, versions_of.
  rewrite filter_app, map_app. simpl. rewrite Hf, Nat.eqb_refl. simpl.
  apply fold_max_app_single.
Qed.

Lemma le_fold_max (l : list nat) (x : nat) : In x l -> x <= fold_right Nat.max 0 l.
Proof. induction l as [|y l IH]; simpl; [tauto|]. intros [->|H]; [lia|]. specialize (IH H); lia. Qed.

Lemma le_max_version (fid : nat) (vs : list VersionRecord) (v : VersionRecord) :
  In v vs -> file_id v = fid -> version_number v <= max_version fid vs.
Proof.
  intros Hin Hf. apply le_fold_max, in_map, filter_In. split; [exact Hin|].
  now apply Nat.eqb_eq.
Qed.

Lemma sort_desc_snoc_top (l : list VersionRecord) (v : VersionRecord) :
  (forall w, In w l -> version_number w < version_number v) ->
  sort_desc (l ++ [v]) = v :: sort_desc l.
Proof.
  induction l as [|x l IH]; intros Hlt; [reflexivity|].
  change (insert_desc x (sort_desc (l ++ [v])) = v :: insert_desc x (sort_desc l)).
  rewrite IH by (intros w Hw; apply Hlt; now right).
  cbn [insert_desc]. assert (Hx : version_number x < version_number v) by (apply Hlt; now left).
  destruct (Nat.leb (version_number v) (version_number x)) eqn:E; [|reflexivity].
  apply Nat.leb_le in E. lia.
Qed.

Lemma versions_of_snoc (fid : nat) (vs : list VersionRecord) (v : VersionRecord) :
  file_id v = fid -> versions_of fid (vs ++ [v]) = versions_of fid vs ++ [v].
Proof. intros Hf. unfold versions_of. rewrite filter_app. simpl. now rewrite Hf, Nat.eqb_refl. Qed.

Lemma find_map_set_current (fid vid : nat) (l : list FileRecord) :
  find (fun f => Nat.eqb (fr_id f) fid) (map (set_current fid vid) l) =
  option_map (set_current fid vid) (find (fun f => Nat.eqb (fr_id f) fid) l).
Proof.
  induction l as [|f l IH]; [reflexivity|]. simpl.
  unfold set_current at 1. destruct (Nat.eqb (fr_id f) fid) eqn:E; simpl.
  - rewrite E. reflexivity.
  - rewrite E. exact IH.
Qed.

Lemma file_exists_set_current (fid vid : nat) (st : store) (fs' : list FileRecord) :
  fs' = map (set_current fid vid) (files st) ->
  forall fid', existsb (fun f => Nat.eqb (fr_id f) fid') fs' =
               existsb (fun f => Nat.eqb (fr_id f) fid') (files st).
Proof.
  intros -> fid'. induction (files st) as [|f l IH]; [reflexivity|].
  simpl. rewrite IH. unfold set_current. now destruct (Nat.eqb (fr_id f) fid).
Qed.

(** ** [createVersion] *)

Lemma createVersion_spec (fk : bool) (fid : nat) (c : string) (st : store) :
  file_exists fid st = true ->
  createVersion fk fid c st =
    let i := next_rowid (versions_seq st) (map vr_id (versions st)) in
    let v := mkVersionRecord i fid c (max_version fid (versions st) + 1) None in
    Ok v (mkStore (map (set_current fid i) (files st)) (versions st ++ [v])
            (files_seq st) i).
Proof.
  intros Hex. unfold createVersion, bind, query, ret, insertVersion, setCurrentVersion.
  destruct (existsb _ (versions st)) eqn:Hu.
  - exfalso. apply existsb_exists in Hu as [w [Hw Hc]].
    apply andb_true_iff in Hc as [Hf Hn].
    apply Nat.eqb_eq in Hf, Hn. pose proof (le_max_version fid _ _ Hw Hf). lia.
  - rewrite Hex, andb_false_r. simpl.
    unfold version_exists. simpl. rewrite existsb_app. simpl.
    rewrite Nat.eqb_refl, orb_true_r, andb_false_r. reflexivity.
Qed.

Lemma find_of_existsb {A} (p : A -> bool) (l : list A) :
  existsb p l = true -> exists x, find p l = Some x /\ p x = true.
Proof.
  intros H. destruct (find p l) as [x|] eqn:E.
  - exists x. split; [reflexivity|]. now apply find_some in E.
  - exfalso. apply existsb_exists in H as [x [Hx Hp]].
    rewrite (find_none _ _ E x Hx) in Hp. discriminate.
Qed.

Lemma createVersions_from (fk : bool) (fid : nat) (cs : list string) :
  forall (st : store) (k : nat),
  file_exists fid st = true -> max_version fid (versions st) = k ->
  exists tr st', createVersions fk fid cs st = Ok tr st' /\
    map (fun p => version_number (fst p)) tr = seq (S k) (List.length cs) /\
    Forall (fun p => snd p = Some (Some (vr_id (fst p)))) tr.
Proof.
  induction cs as [|c cs IH]; intros st k Hex Hk.
  - exists [], st. repeat split; constructor.
  - destruct (find_of_existsb _ _ Hex) as [f [Hfind Hf]].
    apply Nat.eqb_eq in Hf.
    cbn [createVersions]. unfold bind at 1. rewrite (createVersion_spec fk fid c st Hex).
    cbv zeta. unfold bind at 1, query at 1.
    set (i := next_rowid (versions_seq st) (map vr_id (versions st))).
    set (v := mkVersionRecord i fid c (max_version fid (versions st) + 1) None).
    set (st1 := mkStore (map (set_current fid i) (files st)) (versions st ++ [v])
                  (files_seq st) i).
    assert (Hcur : option_map current_version_id (getFileById fid st1) = Some (Some i)).
    { unfold getFileById. simpl. rewrite find_map_set_current, Hfind. simpl.
      unfold set_current. rewrite Hf, Nat.eqb_refl. reflexivity. }
    rewrite Hcur.
    assert (Hex1 : file_exists fid st1 = true).
    { unfold file_exists. erewrite file_exists_set_current; [exact Hex|reflexivity]. }
    assert (Hk1 : max_version fid (versions st1) = S k).
    { simpl. rewrite max_version_snoc by reflexivity. simpl. lia. }
    destruct (IH st1 (S k) Hex1 Hk1) as [tr [st' [Hrun [Hnums Hptr]]]].
    unfold bind at 1. rewrite Hrun.
    exists ((v, Some (Some i)) :: tr), st'. split; [reflexivity|]. split.
    + simpl. rewrite Hnums. f_equal. rewrite Hk. lia.
    + constructor; [reflexivity|exact Hptr].
Qed.

(** C1: starting from a state where the file [fileId] exists and has no
    snapshot, [N] calls [createVersion(fileId, c1) ... createVersion(fileId, cN)]
    all succeed, the snapshots they create carry the version numbers
    [1 .. N] in creation order, and right after each call the file's
    [current_version_id] is the id of the snapshot that call created. *)
Theorem createVersion_numbers_and_pointer (fk : bool) (fileId : nat)
    (cs : list string) (st : store)
    (Hfile : file_exists fileId st = true)
    (Hnone : versions_of fileId (versions st) = []) :
  exists tr st', createVersions fk fileId cs st = Ok tr st' /\
    map (fun p => version_number (fst p)) tr = seq 1 (List.length cs) /\
    Forall (fun p => snd p = Some (Some (vr_id (fst p)))) tr.
Proof.
  apply createVersions_from; [exact Hfile|].
  unfold max_version. rewrite Hnone. reflexivity.
Qed.

Lemma createVersion_numbers_and_pointer_witness :
  file_exists 1 store_one_file = true /\
  versions_of 1 (versions store_one_file) = [] /\
  exists tr st', createVersions true 1 ["x"; "y"; "z"]%string store_one_file = Ok tr st' /\
    map (fun p => version_number (fst p)) tr = seq 1 3 /\
    Forall (fun p => snd p = Some (Some (vr_id (fst p)))) tr.
Proof.
  split; [reflexivity|]. split; [reflexivity|].
  apply (createVersion_numbers_and_pointer true 1 ["x"; "y"; "z"]%string store_one_file);
    reflexivity.
Defined.

(** ** [createFile] *)

(** C8: when a file record with path [filePath] already exists,
    [createFile(filePath)] fails with the UNIQUE violation on
    [files.file_path] (DuplicateKey), and the store it leaves is the store it
    was given: no file record is added and none is modified. *)
Theorem createFile_duplicate_path (filePath : string) (st : store)
    (f : FileRecord) (Hin : In f (files st)) (Hpath : file_path f = filePath) :
  createFile filePath st = Err UniqueViolation st.
Proof.
  unfold createFile, insertFile.
  assert (Hdup : existsb (fun g => String.eqb (file_path g) filePath) (files st) = true).
  { apply existsb_exists. exists f. split; [exact Hin|]. now apply String.eqb_eq. }
  now rewrite Hdup.
Qed.

Lemma createFile_duplicate_path_witness :
  In (mkFileRecord 1 "a.txt" None) (files store_one_file) /\
  createFile "a.txt" store_one_file = Err UniqueViolation store_one_file.
Proof.
  split; [now left|].
  apply (createFile_duplicate_path "a.txt" store_one_file (mkFileRecord 1 "a.txt" None)).
  - now left.
  - reflexivity.
Defined.

(** ** [deleteVersion] *)

Lemma deleteVersion_spec (fk : bool) (versionId : nat) (st : store) :
  match deleteVersion fk versionId st with
  | Ok _ st' =>
      files st' = files st /\
      versions st' = filter (fun v => negb (Nat.eqb (vr_id v) versionId)) (versions st)
  | Err e st' =>
      st' = st /\ e = ForeignKeyViolation /\ fk = true /\
      exists f, In f (files st) /\ current_version_id f = Some versionId
  end.
Proof.
  unfold deleteVersion.
  destruct (fk && version_exists versionId st && existsb (points_to versionId) (files st))
    eqn:E.
  - apply andb_true_iff in E as [E Hp]. apply andb_true_iff in E as [Hfk _].
    apply existsb_exists in Hp as [f [Hin Hpt]].
    repeat split; [exact Hfk|]. exists f. split; [exact Hin|].
    unfold points_to in Hpt. destruct (current_version_id f) as [c|]; [|discriminate].
    apply Nat.eqb_eq in Hpt. now subst.
  - split; reflexivity.
Qed.


(** C4 (code bug): deleting a file's current snapshot never re-points the
    file.  ["a.txt"] has snapshots 1 and 2, 2 current: without the foreign
    keys, deleting 2 leaves the pointer at the deleted 2 although snapshot
    1 remains, instead of moving it to 1; with them, the delete is refused.
    ["a.txt"] with its only snapshot 1: deleting it leaves the pointer at
    1 instead of null. *)
Lemma deleteVersion_current_not_repointed :
  option_map current_version_id (getFileById 1 store_two_snapshots) = Some (Some 2) /\
  map vr_id (getFileVersions 1 10 (final_store (deleteVersion false 2 store_two_snapshots)))
    = [1] /\
  option_map current_version_id
    (getFileById 1 (final_store (deleteVersion false 2 store_two_snapshots)))
    = Some (Some 2) /\
  deleteVersion true 2 store_two_snapshots = Err ForeignKeyViolation store_two_snapshots /\
  map vr_id (getFileVersions 1 10 store_x) = [1] /\
  option_map current_version_id (getFileById 1 store_x) = Some (Some 1) /\
  getFileVersions 1 10 (final_store (deleteVersion false 1 store_x)) = [] /\
  option_map current_version_id (getFileById 1 (final_store (deleteVersion false 1 store_x)))
    = Some (Some 1).
Proof. vm_compute. repeat split. Qed.

Lemma fold_max_le (l : list nat) (m : nat) :
  (forall x, In x l -> x <= m) -> fold_right Nat.max 0 l <= m.
Proof.
  induction l as [|y l IH]; intros H; simpl; [lia|].
  apply Nat.max_lub; [apply H; now left | apply IH; intros x Hx; apply H; now right].
Qed.

Lemma max_version_filter (fid : nat) (p : VersionRecord -> bool) (vs : list VersionRecord) :
  max_version fid (filter p vs) <= max_version fid vs.
Proof.
  unfold max_version at 1. apply fold_max_le. intros x Hx.
  apply in_map_iff in Hx as [w [<- Hw]]. unfold versions_of in Hw.
  apply filter_In in Hw as [Hw Hf]. apply filter_In in Hw as [Hw _].
  apply le_max_version; [exact Hw|]. now apply Nat.eqb_eq.
Qed.

(** C10 (as amended): once [deleteVersion] has removed the snapshot holding
    a file's maximum version number, the next [createVersion] for that file
    succeeds and is numbered one more than the maximum of the remaining
    snapshots' numbers, a maximum which is at most the deleted number:
    version numbers are not reserved. *)
Theorem createVersion_after_delete_max (fk : bool) (fileId versionId : nat)
    (c : string) (st st1 : store) (d : VersionRecord)
    (Hd : In d (versions st)) (Hid : vr_id d = versionId) (Hf : file_id d = fileId)
    (Hmax : version_number d = max_version fileId (versions st))
    (Hfile : file_exists fileId st = true)
    (Hdel : deleteVersion fk versionId st = Ok tt st1) :
  exists v st2, createVersion fk fileId c st1 = Ok v st2 /\
    version_number v = max_version fileId (versions st1) + 1 /\
    max_version fileId (versions st1) <= version_number d.
Proof.
  pose proof (deleteVersion_spec fk versionId st) as Hs. rewrite Hdel in Hs.
  destruct Hs as [Hfiles Hvers].
  assert (Hex1 : file_exists fileId st1 = true) by (unfold file_exists; now rewrite Hfiles).
  rewrite (createVersion_spec fk fileId c st1 Hex1). cbv zeta.
  eexists _, _. split; [reflexivity|]. split; [reflexivity|].
  rewrite Hvers, Hmax. apply max_version_filter.
Qed.

Lemma createVersion_after_delete_max_witness :
  In (mkVersionRecord 3 1 "v3" 3 None) (versions store_gap) /\
  exists v st2, createVersion true 1 "v4" (final_store (deleteVersion true 3 store_gap))
                  = Ok v st2 /\
    version_number v = max_version 1 (versions (final_store (deleteVersion true 3 store_gap))) + 1 /\
    max_version 1 (versions (final_store (deleteVersion true 3 store_gap))) <= 3.
Proof.
  split; [right; now left|].
  apply (createVersion_after_delete_max true 1 3 "v4" store_gap
           (final_store (deleteVersion true 3 store_gap)) (mkVersionRecord 3 1 "v3" 3 None));
    try reflexivity.
  right; now left.
Defined.

(** C10 fails as stated: the new number is not always the deleted one.
    Without the foreign keys: versions 1, 2, 3 of ["a.txt"], delete 2 then
    3; the next [createVersion] is numbered 2, not 3.  With them: from
    [store_gap] (versions 1 and 3, pointer at 1), delete 3; the next is
    numbered 2. *)
Lemma createVersion_after_delete_not_reused :
  let st3 := store_three_snapshots false in
  let st4 := final_store (deleteVersion false 2 st3) in
  let st5 := final_store (deleteVersion false 3 st4) in
  map version_number (versions_of 1 (versions st4)) = [1; 3] /\
  deleteVersion false 3 st4 = Ok tt st5 /\
  created_number (createVersion false 1 "v4" st5) = Some 2 /\
  deleteVersion true 3 store_gap = Ok tt (final_store (deleteVersion true 3 store_gap)) /\
  created_number (createVersion true 1 "v4" (final_store (deleteVersion true 3 store_gap)))
    = Some 2.
Proof. vm_compute. repeat split. Qed.

(** ** Bulk deletions *)

(** C3 (code bug): [quickClean] only sees the 10 newest snapshots of each
    file ([getFileVersions] with its default limit), so a file with 12
    snapshots keeps versions 1, 2 and 12, with or without the foreign
    keys. *)
Lemma quickClean_twelve_snapshots :
  numbers_after 1 (quickClean false (store_n_snapshots false 12)) = Some [1; 2; 12] /\
  numbers_after 1 (quickClean true (store_n_snapshots true 12)) = Some [1; 2; 12].
Proof. vm_compute. split; reflexivity. Qed.

(** C7 (code bug): [clearAll] deletes at most the 10 newest snapshots of
    each file: without the foreign keys, of 11 snapshots version 1 stays.
    With them, its first delete hits the current snapshot and the command
    stops on the foreign key error with nothing deleted, already for a file
    with a single snapshot.  The file records are untouched in every case. *)
Lemma clearAll_leaves_snapshots :
  numbers_after 1 (clearAll false (store_n_snapshots false 11)) = Some [1] /\
  files (final_store (clearAll false (store_n_snapshots false 11)))
    = files (store_n_snapshots false 11) /\
  clearAll true (store_n_snapshots true 11)
    = Err ForeignKeyViolation (store_n_snapshots true 11) /\
  clearAll true (store_n_snapshots true 1)
    = Err ForeignKeyViolation (store_n_snapshots true 1).
Proof. vm_compute. repeat split. Qed.

(** C2 (code bug): the commit "fix bug" touches ["a.txt"] (snapshots v1,
    v2, v3), auto-cleanup on.  Without the foreign keys, the cleanup loop
    deletes every snapshot it read, the relabelled latest one included:
    ["a.txt"] keeps none.  With them, deleting the latest (current) one
    raises, the handler's catch ends the run, and ["a.txt"] keeps all three
    (v3 relabelled).  ["b.txt"] keeps w1, w2 in both cases. *)
Lemma handleGitCommit_cleanup_a_b :
  numbers_after 1 (handleGitCommit false (fun p => p) ["a.txt"]%string
                     (Some "c0ffee"%string) (Some "fix bug"%string) true
                     (store_a_b false)) = Some [] /\
  numbers_after 2 (handleGitCommit false (fun p => p) ["a.txt"]%string
                     (Some "c0ffee"%string) (Some "fix bug"%string) true
                     (store_a_b false)) = Some [1; 2] /\
  numbers_after 1 (handleGitCommit true (fun p => p) ["a.txt"]%string
                     (Some "c0ffee"%string) (Some "fix bug"%string) true
                     (store_a_b true)) = Some [1; 2; 3] /\
  map label (versions_of 1 (versions (final_store
     (handleGitCommit true (fun p => p) ["a.txt"]%string
        (Some "c0ffee"%string) (Some "fix bug"%string) true (store_a_b true)))))
    = [None; None; Some "fix bug"%string].
Proof. vm_compute. repeat split. Qed.

(** ** Appending to the history file *)

Lemma string_length_append (s1 s2 : string) :
  String.length (String.append s1 s2) = String.length s1 + String.length s2.
Proof. induction s1 as [|a s1 IH]; simpl; [reflexivity|now rewrite IH]. Qed.

Lemma string_append_assoc (s1 s2 s3 : string) :
  String.append s1 (String.append s2 s3) = String.append (String.append s1 s2) s3.
Proof. induction s1 as [|a s1 IH]; simpl; [reflexivity|now rewrite IH]. Qed.

Lemma find_filter_other (p q : string) (m : fs) :
  p <> q ->
  find (fun e => String.eqb (fst e) p) (filter (fun e => negb (String.eqb (fst e) q)) m) =
  find (fun e => String.eqb (fst e) p) m.
Proof.
  intros Hne. induction m as [|[k n] m IH]; [reflexivity|]. simpl.
  destruct (String.eqb k q) eqn:Eq; simpl.
  - apply String.eqb_eq in Eq. subst k.
    destruct (String.eqb q p) eqn:Ep; [apply String.eqb_eq in Ep; congruence|exact IH].
  - destruct (String.eqb k p); [reflexivity|exact IH].
Qed.

Lemma stat_fs_set (p q : string) (n : node) (m : fs) :
  stat p (fs_set q n m) = if String.eqb q p then Some n else stat p m.
Proof.
  unfold stat, fs_set. simpl. destruct (String.eqb q p) eqn:E; [reflexivity|].
  rewrite find_filter_other; [reflexivity|].
  intros ->. now rewrite String.eqb_refl in E.
Qed.

Lemma appended_block_suffix (p c : string) :
  appended_block p c = String.append (appended_block p "") c.
Proof.
  unfold appended_block. simpl. do 2 f_equal.
  rewrite <- !string_append_assoc. reflexivity.
Qed.

Lemma mkdir_p_dir (dirname : string -> string) (fuel : nat) (d : string) (m : fs) :
  stat d m = Some DirNode -> mkdir_p dirname fuel d m = inr m.
Proof. intros H. destruct fuel; simpl; now rewrite H. Qed.

Lemma mkdir_p_file (dirname : string -> string) (fuel : nat) (d x : string) (m : fs) :
  stat d m = Some (FileNode x) -> mkdir_p dirname fuel d m = inl NotADirectory.
Proof. intros H. destruct fuel; simpl; now rewrite H. Qed.

(** On success the directory exists, and the only paths that change are
    absent ones that become directories. *)
Lemma mkdir_p_ok (dirname : string -> string) (fuel : nat) (d : string) (m m1 : fs) :
  mkdir_p dirname fuel d m = inr m1 ->
  stat d m1 = Some DirNode /\
  (forall q, stat q m1 = stat q m \/ (stat q m = None /\ stat q m1 = Some DirNode)).
Proof.
  revert d m m1. induction fuel as [|n IH]; intros d m m1 H; simpl in H.
  - destruct (stat d m) as [[x|]|] eqn:Hd; try discriminate.
    + injection H as <-. split; [exact Hd|now left].
    + injection H as <-. rewrite stat_fs_set, String.eqb_refl. split; [reflexivity|].
      intros q. rewrite stat_fs_set. destruct (String.eqb d q) eqn:E; [|now left].
      apply String.eqb_eq in E. subst q. now right.
  - destruct (stat d m) as [[x|]|] eqn:Hd; try discriminate.
    + injection H as <-. split; [exact Hd|now left].
    + destruct (String.eqb (dirname d) d).
      * injection H as <-. rewrite stat_fs_set, String.eqb_refl. split; [reflexivity|].
        intros q. rewrite stat_fs_set. destruct (String.eqb d q) eqn:E; [|now left].
        apply String.eqb_eq in E. subst q. now right.
      * destruct (mkdir_p dirname n (dirname d) m) as [e|m0] eqn:Hm; [discriminate|].
        injection H as <-. destruct (IH _ _ _ Hm) as [_ Hq].
        rewrite stat_fs_set, String.eqb_refl. split; [reflexivity|].
        intros q. rewrite stat_fs_set. destruct (String.eqb d q) eqn:E; [|apply Hq].
        apply String.eqb_eq in E. subst q. now right.
Qed.

(** C9 (as amended): when the destination resolved from the configured
    path is an existing file (so, as on any file system, its directory
    exists), with a workspace folder open: a snapshot with empty content
    makes [appendVersionToFile] fail before anything is written; for any
    other snapshot it succeeds and leaves that file equal to its previous
    contents followed by the block
    ["\n\nVersion from <path>\n\n<content>"], which ends with the
    snapshot's content; the new length is the old length plus the block's. *)
Theorem appendVersionToFile_appends (path_join : string -> string -> string)
    (dirname : string -> string) (workspace : string) (version : VersionRecord)
    (filePath old : string) (m : fs)
    (Hdest : stat (resolve_path path_join filePath m) m = Some (FileNode old))
    (Hdir : stat (dirname (resolve_path path_join filePath m)) m = Some DirNode) :
  let p := resolve_path path_join filePath m in
  let block := appended_block p (content version) in
  (content version = ""%string ->
     appendVersionToFile path_join dirname (Some workspace) version filePath m
       = inl MissingContent) /\
  (content version <> ""%string ->
   exists m', appendVersionToFile path_join dirname (Some workspace) version filePath m
               = inr m' /\
    stat p m' = Some (FileNode (String.append old block)) /\
    String.length (String.append old block) = String.length old + String.length block /\
    exists before, block = String.append before (content version)).
Proof.
  unfold appendVersionToFile. cbv zeta.
  set (p := resolve_path path_join filePath m) in *.
  split; [intros Hc; now rewrite Hc|]. intros Hc.
  destruct (String.eqb (content version) "") eqn:Ec.
  { apply String.eqb_eq in Ec. contradiction. }
  unfold mkdir_recursive. rewrite (mkdir_p_dir _ _ _ _ Hdir).
  unfold appendFile. rewrite Hdest.
  eexists. split; [reflexivity|]. split.
  - rewrite stat_fs_set, String.eqb_refl. reflexivity.
  - split; [apply string_length_append|].
    eexists. apply appended_block_suffix.
Qed.

Lemma appendVersionToFile_appends_witness :
  stat "out/h.txt" fs_history = Some (FileNode "old") /\
  stat "out" fs_history = Some DirNode /\
  (content (mkVersionRecord 1 1 "hello" 1 None) = ""%string ->
   appendVersionToFile posix_join posix_dirname (Some "ws"%string)
     (mkVersionRecord 1 1 "hello" 1 None) "out/h.txt" fs_history = inl MissingContent) /\
  (content (mkVersionRecord 1 1 "hello" 1 None) <> ""%string ->
   exists m', appendVersionToFile posix_join posix_dirname (Some "ws"%string)
               (mkVersionRecord 1 1 "hello" 1 None) "out/h.txt" fs_history = inr m' /\
    stat "out/h.txt" m' =
      Some (FileNode (String.append "old" (appended_block "out/h.txt" "hello"))) /\
    String.length (String.append "old" (appended_block "out/h.txt" "hello")) =
      String.length "old" + String.length (appended_block "out/h.txt" "hello") /\
    exists before, appended_block "out/h.txt" "hello" = String.append before "hello").
Proof.
  split; [reflexivity|]. split; [reflexivity|].
  apply (appendVersionToFile_appends posix_join posix_dirname "ws"
           (mkVersionRecord 1 1 "hello" 1 None) "out/h.txt" "old" fs_history).
  - reflexivity.
  - reflexivity.
Defined.

(** C9 fails as stated for a snapshot with empty content: the guard
    [if (!version.content)] throws and the existing destination is not
    written. *)
Lemma appendVersionToFile_empty_content :
  stat "out/h.txt" fs_history = Some (FileNode "old") /\
  appendVersionToFile posix_join posix_dirname (Some "ws"%string)
    (mkVersionRecord 1 1 "" 1 None) "out/h.txt" fs_history = inl MissingContent.
Proof. vm_compute. split; reflexivity. Qed.

(** ** The save handler *)

Lemma find_app {A} (p : A -> bool) (l1 l2 : list A) :
  find p (l1 ++ l2) = match find p l1 with Some x => Some x | None => find p l2 end.
Proof. induction l1 as [|x l1 IH]; simpl; [reflexivity|]. destruct (p x); [reflexivity|exact IH]. Qed.

Lemma getFile_map_set_current (path : string) (fid i : nat) (l : list FileRecord) :
  find (fun f => String.eqb (file_path f) path) (map (set_current fid i) l) =
  option_map (set_current fid i) (find (fun f => String.eqb (file_path f) path) l).
Proof.
  induction l as [|f l IH]; [reflexivity|]. simpl.
  assert (Hp : file_path (set_current fid i f) = file_path f)
    by (unfold set_current; now destruct (Nat.eqb (fr_id f) fid)).
  rewrite Hp. destruct (String.eqb (file_path f) path); [reflexivity|exact IH].
Qed.

Lemma fr_id_set_current (fid i : nat) (f : FileRecord) :
  fr_id (set_current fid i f) = fr_id f.
Proof. unfold set_current. now destruct (Nat.eqb (fr_id f) fid). Qed.

Lemma getFileVersions_after_create (fid i : nat) (c : string) (vs : list VersionRecord) :
  let v := mkVersionRecord i fid c (max_version fid vs + 1) None in
  firstn 1 (sort_desc (versions_of fid (vs ++ [v]))) = [v].
Proof.
  cbv zeta. rewrite versions_of_snoc by reflexivity.
  rewrite sort_desc_snoc_top; [reflexivity|].
  intros w Hw. unfold versions_of in Hw. apply filter_In in Hw as [Hw Hf].
  apply Nat.eqb_eq in Hf. pose proof (le_max_version fid vs w Hw Hf). simpl. lia.
Qed.

Section SaveProofs.

Variable fk : bool.
Variable line_diff : list string -> list string -> list edit.
Variable saveAllChanges : bool.

Lemma saveWithFile_unfold (f : FileRecord) (c : string) (st : store) :
  saveWithFile fk line_diff saveAllChanges f c st =
  let vs := getFileVersions (fr_id f) 1 st in
  if match vs with v :: _ => String.eqb (content v) c | [] => false end
  then Ok tt st
  else if negb saveAllChanges && negb (significant_change line_diff vs c)
  then Ok tt st
  else match createVersion fk (fr_id f) c st with
       | Ok _ st' => Ok tt st'
       | Err e st' => Err e st'
       end.
Proof.
  unfold saveWithFile, bind, query, ret. cbv zeta.
  destruct (match getFileVersions (fr_id f) 1 st with
            | v :: _ => String.eqb (content v) c | [] => false end); [reflexivity|].
  destruct (negb saveAllChanges && negb (significant_change line_diff
              (getFileVersions (fr_id f) 1 st) c)); reflexivity.
Qed.

Lemma saveWithFile_same_id (f g : FileRecord) (c : string) :
  fr_id f = fr_id g ->
  saveWithFile fk line_diff saveAllChanges f c = saveWithFile fk line_diff saveAllChanges g c.
Proof. intros H. unfold saveWithFile. now rewrite H. Qed.

Lemma saveWithFile_twice (f : FileRecord) (c : string) (st : store) :
  file_exists (fr_id f) st = true ->
  exists st1, saveWithFile fk line_diff saveAllChanges f c st = Ok tt st1 /\
    saveWithFile fk line_diff saveAllChanges f c st1 = Ok tt st1 /\
    ((files st1 = files st /\ versions st1 = versions st) \/
     exists i v, files st1 = map (set_current (fr_id f) i) (files st) /\
                 versions st1 = versions st ++ [v] /\ content v = c).
Proof.
  intros Hex. rewrite !saveWithFile_unfold. cbv zeta.
  destruct (match getFileVersions (fr_id f) 1 st with
            | v :: _ => String.eqb (content v) c | [] => false end) eqn:E1.
  { exists st. rewrite saveWithFile_unfold. cbv zeta. rewrite E1. auto. }
  destruct (negb saveAllChanges && negb (significant_change line_diff
              (getFileVersions (fr_id f) 1 st) c)) eqn:E2.
  { exists st. rewrite saveWithFile_unfold. cbv zeta. rewrite E1, E2. auto. }
  rewrite (createVersion_spec fk (fr_id f) c st Hex). cbv zeta.
  set (i := next_rowid (versions_seq st) (map vr_id (versions st))).
  set (v := mkVersionRecord i (fr_id f) c (max_version (fr_id f) (versions st) + 1) None).
  eexists. split; [reflexivity|]. split.
  - rewrite saveWithFile_unfold. cbv zeta. unfold getFileVersions. simpl versions.
    pose proof (getFileVersions_after_create (fr_id f) i c (versions st)) as Hg.
    cbv zeta in Hg. fold v in Hg. rewrite Hg.
    simpl. rewrite String.eqb_refl. reflexivity.
  - right. exists i, v. repeat split.
Qed.

Lemma file_exists_of_find (path : string) (f : FileRecord) (st : store) :
  getFile path st = Some f -> file_exists (fr_id f) st = true.
Proof.
  intros H. apply find_some in H as [Hin _]. apply existsb_exists.
  exists f. split; [exact Hin|]. apply Nat.eqb_refl.
Qed.

Lemma onWillSave_found (path c : string) (st : store) (f : FileRecord) :
  getFile path st = Some f ->
  onWillSave fk line_diff saveAllChanges path c st =
  try_catch (saveWithFile fk line_diff saveAllChanges f c) st.
Proof. intros H. unfold onWillSave, try_catch, bind, query, ret. now rewrite H. Qed.

Lemma onWillSave_new (path c : string) (st : store) :
  getFile path st = None ->
  onWillSave fk line_diff saveAllChanges path c st =
  match createFile path st with
  | Ok r st0 => try_catch (saveWithFile fk line_diff saveAllChanges r c) st0
  | Err e st0 => Ok tt st0
  end.
Proof.
  intros H. unfold onWillSave, try_catch, bind, query, ret. rewrite H.
  destruct (createFile path st); reflexivity.
Qed.

(** After a save the file's record is there, under the same id, and the
    save's body run again changes nothing; the save added at most one row,
    holding [c]. *)
Lemma onWillSave_step (path c : string) (st st1 : store) :
  onWillSave fk line_diff saveAllChanges path c st = Ok tt st1 ->
  (exists f, getFile path st1 = Some f /\
     saveWithFile fk line_diff saveAllChanges f c st1 = Ok tt st1) /\
  (versions st1 = versions st \/
   exists v, versions st1 = versions st ++ [v] /\ content v = c).
Proof.
  intros Hrun.
  assert (Hgen : forall st0 f, getFile path st0 = Some f ->
            versions st0 = versions st ->
            try_catch (saveWithFile fk line_diff saveAllChanges f c) st0 = Ok tt st1 ->
            (exists g, getFile path st1 = Some g /\
               saveWithFile fk line_diff saveAllChanges g c st1 = Ok tt st1) /\
            (versions st1 = versions st \/
             exists v, versions st1 = versions st ++ [v] /\ content v = c)).
  { intros st0 f Hf Hv Hs.
    destruct (saveWithFile_twice f c st0 (file_exists_of_find path f st0 Hf))
      as [st2 [H1 [H2 Hcases]]].
    unfold try_catch in Hs. rewrite H1 in Hs. injection Hs as <-.
    destruct Hcases as [[Hfs Hvs] | [i [v [Hfs [Hvs Hc]]]]].
    - split; [|left; congruence].
      exists f. split; [|exact H2]. unfold getFile. rewrite Hfs. exact Hf.
    - split; [|right; exists v; split; [congruence|exact Hc]].
      exists (set_current (fr_id f) i f). split.
      + unfold getFile. rewrite Hfs, getFile_map_set_current. unfold getFile in Hf.
        now rewrite Hf.
      + rewrite (saveWithFile_same_id _ f) by apply fr_id_set_current. exact H2. }
  destruct (getFile path st) as [f|] eqn:Hget.
  - rewrite (onWillSave_found path c st f Hget) in Hrun. now apply (Hgen st f).
  - rewrite (onWillSave_new path c st Hget) in Hrun. unfold createFile, insertFile in Hrun.
    assert (Hno : existsb (fun f => String.eqb (file_path f) path) (files st) = false).
    { destruct (existsb _ (files st)) eqn:E; [|reflexivity].
      apply find_of_existsb in E as [x [Hx _]]. unfold getFile in Hget. congruence. }
    rewrite Hno in Hrun.
    set (r := mkFileRecord (next_rowid (files_seq st) (map fr_id (files st))) path None) in Hrun.
    set (st0 := mkStore (files st ++ [r]) (versions st)
                  (next_rowid (files_seq st) (map fr_id (files st))) (versions_seq st)) in Hrun.
    apply (Hgen st0 r); [| reflexivity | exact Hrun].
    unfold getFile. simpl. rewrite find_app. unfold getFile in Hget. rewrite Hget.
    simpl. rewrite String.eqb_refl. reflexivity.
Qed.

End SaveProofs.

(** ** The significant-change threshold *)

Ltac clean_script :=
  repeat match goal with
  | H : _ && _ = true |- _ => apply andb_true_iff in H as [? ?]
  | H : String.eqb ?t _ = true |- _ => is_var t; apply String.eqb_eq in H; subst t
  | H : String.eqb _ _ = true |- _ => vm_compute in H; discriminate H
  end.

Ltac break_script :=
  repeat match goal with
  | H : script_ok ?es _ _ = true |- _ =>
      is_var es; destruct es as [|[?t|?t|?t] ?es]; cbn [script_ok] in H;
      try discriminate H; clean_script
  end.

(** Whatever edit script the line diff returns for ["x"] against
    [plus_plus_text], it deletes one line and inserts three, and the patch
    filter keeps a single line of them: the three insertions render as
    ["+++a"], ["+++b"], ["+++c"] and are dropped with the ["+++ file"]
    header. *)
Lemma plus_plus_patch (line_diff : list string -> list string -> list edit) :
  script_ok (line_diff (diff_lines "x") (diff_lines plus_plus_text))
            (diff_lines "x") (diff_lines plus_plus_text) = true ->
  List.length (filter is_change (line_diff (diff_lines "x") (diff_lines plus_plus_text))) = 4 /\
  List.length (patch_changes (createPatch line_diff "file" "x" plus_plus_text)) = 1.
Proof.
  unfold createPatch.
  generalize (line_diff (diff_lines "x") (diff_lines plus_plus_text)) as es.
  intros es H.
  change (diff_lines "x") with ["x"%string] in H.
  change (diff_lines plus_plus_text) with
    [String.append "++a" (String nl EmptyString);
     String.append "++b" (String nl EmptyString); "++c"%string] in H.
  break_script; split; vm_compute; reflexivity.
Qed.

(** C6 (code bug): under significant-change-only, with the latest snapshot
    ["x"] and the candidate ["++a\n++b\n++c"], the line diff deletes one
    line and inserts three (4 changed lines, above the threshold of 2), yet
    the save creates no snapshot: [!line.startsWith('+++')] also drops the
    inserted lines that begin with ["++"].  This holds for every edit script
    the diff may return. *)
Theorem onWillSave_skips_plus_plus_lines (fk : bool)
    (line_diff : list string -> list string -> list edit)
    (Hdiff : script_ok (line_diff (diff_lines "x") (diff_lines plus_plus_text))
               (diff_lines "x") (diff_lines plus_plus_text) = true) :
  List.length (filter is_change (line_diff (diff_lines "x") (diff_lines plus_plus_text))) = 4 /\
  onWillSave fk line_diff false "a.txt" plus_plus_text store_x = Ok tt store_x.
Proof.
  destruct (plus_plus_patch line_diff Hdiff) as [Hn Hp].
  split; [exact Hn|].
  set (f := mkFileRecord 1 "a.txt" (Some 1)).
  set (vx := mkVersionRecord 1 1 "x" 1 None).
  rewrite (onWillSave_found fk line_diff false "a.txt" plus_plus_text store_x f)
    by (vm_compute; reflexivity).
  unfold try_catch. rewrite saveWithFile_unfold. cbv zeta.
  replace (getFileVersions (fr_id f) 1 store_x) with [vx] by (vm_compute; reflexivity).
  assert (Hsig : significant_change line_diff [vx] plus_plus_text = false).
  { unfold significant_change. change (content vx) with "x"%string. rewrite Hp. reflexivity. }
  rewrite Hsig. reflexivity.
Qed.

Lemma onWillSave_skips_plus_plus_lines_witness :
  script_ok (shortest_script (diff_lines "x") (diff_lines plus_plus_text))
    (diff_lines "x") (diff_lines plus_plus_text) = true /\
  List.length (filter is_change
    (shortest_script (diff_lines "x") (diff_lines plus_plus_text))) = 4 /\
  onWillSave true shortest_script false "a.txt" plus_plus_text store_x = Ok tt store_x.
Proof.
  split; [vm_compute; reflexivity|].
  apply (onWillSave_skips_plus_plus_lines true shortest_script).
  vm_compute. reflexivity.
Defined.

(** * Further properties of the code *)

(** ** Reading snapshots *)

Lemma insert_desc_perm (v : VersionRecord) (l : list VersionRecord) :
  Permutation (insert_desc v l) (v :: l).
Proof.
  induction l as [|w l IH]; simpl; [reflexivity|].
  destruct (Nat.leb (version_number w) (version_number v)); [reflexivity|].
  rewrite IH. apply perm_swap.
Qed.

Lemma sort_desc_perm (l : list VersionRecord) : Permutation (sort_desc l) l.
Proof.
  induction l as [|v l IH]; [reflexivity|].
  change (sort_desc (v :: l)) with (insert_desc v (sort_desc l)).
  rewrite insert_desc_perm. now apply perm_skip.
Qed.

Lemma hdrel_insert_desc (w v : VersionRecord) (l : list VersionRecord) :
  desc w v -> HdRel desc w l -> HdRel desc w (insert_desc v l).
Proof.
  intros Hwv Hl. destruct l as [|u l]; simpl; [now constructor|].
  destruct (Nat.leb (version_number u) (version_number v)); constructor; [exact Hwv|].
  now inversion Hl.
Qed.

Lemma insert_desc_sorted (v : VersionRecord) (l : list VersionRecord) :
  Sorted desc l -> Sorted desc (insert_desc v l).
Proof.
  induction 1 as [|w l Hs IH Hhd]; simpl; [now repeat constructor|].
  destruct (Nat.leb (version_number w) (version_number v)) eqn:E.
  - apply Nat.leb_le in E. constructor; [now constructor|now constructor].
  - apply Nat.leb_gt in E. constructor; [exact IH|].
    apply hdrel_insert_desc; [unfold desc; lia|exact Hhd].
Qed.

Lemma sort_desc_sorted (l : list VersionRecord) : Sorted desc (sort_desc l).
Proof.
  induction l as [|v l IH]; [constructor|].
  change (sort_desc (v :: l)) with (insert_desc v (sort_desc l)).
  now apply insert_desc_sorted.
Qed.

Lemma firstn_sorted {A} (R : A -> A -> Prop) (n : nat) (l : list A) :
  Sorted R l -> Sorted R (firstn n l).
Proof.
  revert l. induction n as [|n IH]; intros l Hs; [constructor|].
  destruct l as [|a l]; [constructor|]. simpl.
  inversion Hs as [|? ? Hs' Hhd]; subst. constructor; [now apply IH|].
  destruct l as [|b l]; destruct n; simpl; constructor. now inversion Hhd.
Qed.

Lemma in_firstn {A} (n : nat) (l : list A) (x : A) : In x (firstn n l) -> In x l.
Proof. intros H. rewrite <- (firstn_skipn n l). apply in_or_app. now left. Qed.

Lemma in_getFileVersions (fileId limit : nat) (st : store) (v : VersionRecord) :
  In v (getFileVersions fileId limit st) -> In v (versions st) /\ file_id v = fileId.
Proof.
  unfold getFileVersions. intros H. apply in_firstn in H.
  apply (Permutation_in _ (sort_desc_perm _)) in H.
  unfold versions_of in H. apply filter_In in H as [Hin Hf].
  split; [exact Hin|]. now apply Nat.eqb_eq.
Qed.

Lemma le_fold_max_from (l : list nat) (s x : nat) : In x l -> x <= fold_right Nat.max s l.
Proof.
  induction l as [|y l IH]; simpl; [tauto|]. intros [->|H]; [lia|]. specialize (IH H); lia.
Qed.

Lemma find_none_existsb {A} (p : A -> bool) (l : list A) :
  find p l = None -> existsb p l = false.
Proof.
  intros H. destruct (existsb p l) eqn:E; [|reflexivity].
  destruct (find_of_existsb p l E) as [x [Hx _]]. congruence.
Qed.

Lemma find_map_same {A} (p : A -> bool) (g : A -> A) (l : list A) :
  (forall x, p (g x) = p x) -> find p (map g l) = option_map g (find p l).
Proof.
  intros Hg. induction l as [|x l IH]; [reflexivity|]. simpl. rewrite Hg.
  destruct (p x); [reflexivity|exact IH].
Qed.

Lemma find_none_of {A} (p : A -> bool) (l : list A) :
  (forall x, In x l -> p x = false) -> find p l = None.
Proof.
  induction l as [|x l IH]; intros H; [reflexivity|]. simpl.
  rewrite (H x (or_introl eq_refl)). apply IH. intros y Hy. apply H. now right.
Qed.

(** [getFileVersions(fileId, limit)] returns [min(limit, n)] rows when the
    file has [n] snapshots, each of them a snapshot of that file in the
    store, in non-increasing version-number order. *)
Theorem getFileVersions_shape (fileId limit : nat) (st : store) :
  List.length (getFileVersions fileId limit st) =
    Nat.min limit (List.length (versions_of fileId (versions st))) /\
  (forall v, In v (getFileVersions fileId limit st) ->
             In v (versions st) /\ file_id v = fileId) /\
  Sorted (fun a b => version_number b <= version_number a)
    (getFileVersions fileId limit st).
Proof.
  split; [|split].
  - unfold getFileVersions. rewrite length_firstn, (Permutation_length (sort_desc_perm _)).
    reflexivity.
  - apply in_getFileVersions.
  - apply firstn_sorted, sort_desc_sorted.
Qed.

(** When the file has a snapshot and [limit > 0], the first row of
    [getFileVersions(fileId, limit)] (the [versions[0]] that the save
    handler and [handleGitCommit] take as the latest) is a snapshot of the
    file carrying its highest version number. *)
Theorem getFileVersions_first_is_latest (fileId limit : nat) (st : store)
    (v : VersionRecord) (Hv : In v (versions st)) (Hf : file_id v = fileId)
    (Hlim : 0 < limit) :
  exists w rest, getFileVersions fileId limit st = w :: rest /\
    In w (versions st) /\ file_id w = fileId /\
    version_number w = max_version fileId (versions st).
Proof.
  assert (Hvo : In v (versions_of fileId (versions st)))
    by (apply filter_In; split; [exact Hv|now apply Nat.eqb_eq]).
  pose proof (sort_desc_perm (versions_of fileId (versions st))) as Hp.
  pose proof (sort_desc_sorted (versions_of fileId (versions st))) as Hs.
  destruct (sort_desc (versions_of fileId (versions st))) as [|w rest] eqn:E.
  { apply Permutation_nil in Hp. rewrite Hp in Hvo. contradiction. }
  destruct limit as [|k]; [lia|].
  assert (Hw : In w (versions_of fileId (versions st)))
    by (apply (Permutation_in _ Hp); now left).
  unfold versions_of in Hw. apply filter_In in Hw as [Hw Hwf]. apply Nat.eqb_eq in Hwf.
  exists w, (firstn k rest). unfold getFileVersions. rewrite E.
  split; [reflexivity|]. split; [exact Hw|]. split; [exact Hwf|].
  apply Nat.le_antisymm; [now apply le_max_version|].
  apply fold_max_le. intros x Hx. apply in_map_iff in Hx as [u [<- Hu]].
  apply (Permutation_in _ (Permutation_sym Hp)) in Hu.
  apply Sorted_StronglySorted in Hs; [|intros a b c Hab Hbc; unfold desc in *; lia].
  destruct Hu as [->|Hu]; [lia|].
  inversion Hs as [|? ? _ Hall]. rewrite Forall_forall in Hall. exact (Hall u Hu).
Qed.

Lemma getFileVersions_first_is_latest_witness :
  exists w rest, getFileVersions 1 1 (store_three_snapshots false) = w :: rest /\
    In w (versions (store_three_snapshots false)) /\ file_id w = 1 /\
    version_number w = max_version 1 (versions (store_three_snapshots false)).
Proof.
  apply (getFileVersions_first_is_latest 1 1 (store_three_snapshots false)
           (mkVersionRecord 1 1 "v1" 1 None)).
  - vm_compute. now left.
  - reflexivity.
  - lia.
Defined.

(** ** Writing snapshots *)

Lemma fresh_rowid (seq : nat) (ids : list nat) (x : nat) :
  In x ids -> x < next_rowid seq ids.
Proof. intros H. unfold next_rowid. pose proof (le_fold_max_from ids seq x H). lia. Qed.

Lemma createFile_fresh (filePath : string) (st : store) :
  getFile filePath st = None ->
  createFile filePath st =
    let i := next_rowid (files_seq st) (map fr_id (files st)) in
    let r := mkFileRecord i filePath None in
    Ok r (mkStore (files st ++ [r]) (versions st) i (versions_seq st)).
Proof.
  intros H. unfold createFile, insertFile. unfold getFile in H.
  now rewrite (find_none_existsb _ _ H).
Qed.

(** [createFile(path)] for a path with no file record succeeds: it appends
    a record for the path, with no current snapshot and an id above every
    existing file id, leaves the snapshots alone, and [getFile(path)] then
    returns that record. *)
Theorem createFile_new_path (filePath : string) (st : store)
    (Hnew : getFile filePath st = None) :
  exists r st', createFile filePath st = Ok r st' /\
    files st' = files st ++ [r] /\ versions st' = versions st /\
    file_path r = filePath /\ current_version_id r = None /\
    (forall f, In f (files st) -> fr_id f < fr_id r) /\
    getFile filePath st' = Some r.
Proof.
  rewrite (createFile_fresh filePath st Hnew). cbv zeta.
  eexists _, _. split; [reflexivity|]. simpl.
  split; [reflexivity|]. split; [reflexivity|]. split; [reflexivity|].
  split; [reflexivity|]. split.
  - intros f Hf. apply fresh_rowid, in_map, Hf.
  - unfold getFile. simpl. rewrite find_app. unfold getFile in Hnew. rewrite Hnew.
    simpl. now rewrite String.eqb_refl.
Qed.

Lemma createFile_new_path_witness :
  exists r st', createFile "b.txt" store_one_file = Ok r st' /\
    files st' = files store_one_file ++ [r] /\ versions st' = versions store_one_file /\
    file_path r = "b.txt"%string /\ current_version_id r = None /\
    (forall f, In f (files store_one_file) -> fr_id f < fr_id r) /\
    getFile "b.txt" st' = Some r.
Proof. apply createFile_new_path. reflexivity. Defined.

(** [createVersion] in full, for any store. *)
Lemma createVersion_cases (fk : bool) (fid : nat) (c : string) (st : store) :
  createVersion fk fid c st =
    if fk && negb (file_exists fid st) then Err ForeignKeyViolation st
    else
      let i := next_rowid (versions_seq st) (map vr_id (versions st)) in
      let v := mkVersionRecord i fid c (max_version fid (versions st) + 1) None in
      Ok v (mkStore (map (set_current fid i) (files st)) (versions st ++ [v])
              (files_seq st) i).
Proof.
  unfold createVersion, bind, query, ret, insertVersion, setCurrentVersion.
  destruct (existsb _ (versions st)) eqn:Hu.
  - exfalso. apply existsb_exists in Hu as [w [Hw Hc]].
    apply andb_true_iff in Hc as [Hf Hn].
    apply Nat.eqb_eq in Hf, Hn. pose proof (le_max_version fid _ _ Hw Hf). lia.
  - destruct (fk && negb (file_exists fid st)); [reflexivity|].
    unfold version_exists. simpl. rewrite existsb_app. simpl.
    rewrite Nat.eqb_refl, orb_true_r, andb_false_r. reflexivity.
Qed.

(** [createVersion] never trips the [UNIQUE(file_id, version_number)]
    constraint: it either appends one snapshot of the file, holding the
    content and numbered one above the file's highest number, or, only
    with the foreign keys enforced and no file record with that id, fails
    with the foreign key error and leaves the store unchanged.  Without
    enforcement it also succeeds for a missing file. *)
Theorem createVersion_outcome (fk : bool) (fileId : nat) (c : string) (st : store) :
  match createVersion fk fileId c st with
  | Ok v st' =>
      versions st' = versions st ++ [v] /\ file_id v = fileId /\ content v = c /\
      version_number v = max_version fileId (versions st) + 1
  | Err e st' =>
      e = ForeignKeyViolation /\ fk = true /\ file_exists fileId st = false /\ st' = st
  end.
Proof.
  rewrite createVersion_cases.
  destruct (fk && negb (file_exists fileId st)) eqn:E.
  - apply andb_true_iff in E as [Hfk Hne]. apply negb_true_iff in Hne. now repeat split.
  - cbv zeta. now repeat split.
Qed.

Lemma getVersion_fresh (st : store) (v : VersionRecord) :
  vr_id v = next_rowid (versions_seq st) (map vr_id (versions st)) ->
  getVersion (vr_id v) (mkStore (files st) (versions st ++ [v]) (files_seq st) (vr_id v)) = Some v.
Proof.
  intros Hi. unfold getVersion. simpl. rewrite find_app.
  destruct (find (fun w => Nat.eqb (vr_id w) (vr_id v)) (versions st)) as [w|] eqn:E.
  - exfalso. apply find_some in E as [Hw Heq]. apply Nat.eqb_eq in Heq.
    pose proof (fresh_rowid (versions_seq st) (map vr_id (versions st)) (vr_id w)
                  (in_map _ _ _ Hw)). lia.
  - simpl. now rewrite Nat.eqb_refl.
Qed.

(** [createVersion] on an existing file, with its effect on the file
    records and [getCurrentVersion]. *)
Lemma createVersion_current (fk : bool) (fid : nat) (c : string) (st : store) :
  file_exists fid st = true ->
  exists v st', createVersion fk fid c st = Ok v st' /\
    versions st' = versions st ++ [v] /\ file_id v = fid /\ content v = c /\
    version_number v = max_version fid (versions st) + 1 /\
    files st' = map (set_current fid (vr_id v)) (files st) /\
    getCurrentVersion fid st' = Some v.
Proof.
  intros Hex. rewrite (createVersion_spec fk fid c st Hex). cbv zeta.
  set (i := next_rowid (versions_seq st) (map vr_id (versions st))).
  set (v := mkVersionRecord i fid c (max_version fid (versions st) + 1) None).
  exists v. eexists. split; [reflexivity|].
  do 5 (split; [reflexivity|]).
  destruct (find_of_existsb _ _ Hex) as [f [Hfind Hf]]. apply Nat.eqb_eq in Hf.
  unfold getCurrentVersion, getFileById. simpl.
  rewrite find_map_set_current, Hfind. simpl. unfold set_current. rewrite Hf, Nat.eqb_refl.
  simpl. pose proof (getVersion_fresh (with_files (map (set_current fid i) (files st)) st) v)
    as Hg.
  unfold with_files in Hg. simpl in Hg. apply Hg. reflexivity.
Qed.

(** After [createVersion(fileId, c)] on an existing file,
    [getCurrentVersion(fileId)] returns the snapshot just created, and the
    file records of other ids, with their pointers, are unchanged. *)
Theorem createVersion_then_getCurrentVersion (fk : bool) (fileId : nat) (c : string)
    (st : store) (Hfile : file_exists fileId st = true) :
  exists v st', createVersion fk fileId c st = Ok v st' /\
    getCurrentVersion fileId st' = Some v /\ content v = c /\
    (forall f, In f (files st) -> fr_id f <> fileId -> In f (files st')).
Proof.
  destruct (createVersion_current fk fileId c st Hfile)
    as [v [st' [Hrun [_ [_ [Hc [_ [Hfiles Hcur]]]]]]]].
  exists v, st'. split; [exact Hrun|]. split; [exact Hcur|]. split; [exact Hc|].
  intros f Hf Hne. rewrite Hfiles.
  assert (Hs : set_current fileId (vr_id v) f = f)
    by (unfold set_current; apply Nat.eqb_neq in Hne; now rewrite Hne).
  rewrite <- Hs. now apply in_map.
Qed.

Lemma createVersion_then_getCurrentVersion_witness :
  exists v st', createVersion true 1 "x" store_one_file = Ok v st' /\
    getCurrentVersion 1 st' = Some v /\ content v = "x"%string /\
    (forall f, In f (files store_one_file) -> fr_id f <> 1 -> In f (files st')).
Proof. apply createVersion_then_getCurrentVersion. reflexivity. Defined.

(** Without the foreign keys enforced, deleting a file's current snapshot
    leaves the file record as it was, pointing at a snapshot that no longer
    exists: [getCurrentVersion] then finds nothing, whatever other
    snapshots the file still has. *)
Theorem deleteVersion_current_dangles (fileId versionId : nat) (st : store)
    (f : FileRecord) (Hf : getFileById fileId st = Some f)
    (Hc : current_version_id f = Some versionId) :
  exists st', deleteVersion false versionId st = Ok tt st' /\
    getFileById fileId st' = Some f /\ getCurrentVersion fileId st' = None.
Proof.
  eexists. split; [reflexivity|].
  unfold getCurrentVersion, getFileById in *. simpl. rewrite Hf, Hc. split; [reflexivity|].
  unfold getVersion. simpl. apply find_none_of. intros w Hw.
  apply filter_In in Hw as [_ Hw]. now apply negb_true_iff in Hw.
Qed.

Lemma deleteVersion_current_dangles_witness :
  exists st', deleteVersion false 2 store_two_snapshots = Ok tt st' /\
    getFileById 1 st' = Some (mkFileRecord 1 "a.txt" (Some 2)) /\
    getCurrentVersion 1 st' = None.
Proof.
  apply (deleteVersion_current_dangles 1 2 store_two_snapshots (mkFileRecord 1 "a.txt" (Some 2)));
    vm_compute; reflexivity.
Defined.

(** [updateVersion(id, content, label)] changes the content and the label of
    the snapshot with that id, as [getVersion] then shows, and nothing
    else: other snapshots, every id, file and version number, and the file
    records stay as they were (an unknown id changes nothing). *)
Theorem updateVersion_getVersion (versionId : nat) (newContent newLabel : string)
    (st : store) :
  exists st', updateVersion versionId newContent newLabel st = Ok tt st' /\
    getVersion versionId st' =
      option_map (fun v => mkVersionRecord (vr_id v) (file_id v) newContent
                             (version_number v) (Some newLabel))
                 (getVersion versionId st) /\
    (forall id, id <> versionId -> getVersion id st' = getVersion id st) /\
    map (fun v => (vr_id v, file_id v, version_number v)) (versions st') =
      map (fun v => (vr_id v, file_id v, version_number v)) (versions st) /\
    files st' = files st.
Proof.
  set (g := fun v : VersionRecord => if Nat.eqb (vr_id v) versionId
            then mkVersionRecord (vr_id v) (file_id v) newContent (version_number v) (Some newLabel)
            else v).
  assert (Hid : forall v, vr_id (g v) = vr_id v) by (intros v; unfold g; now destruct (Nat.eqb _ _)).
  eexists. split; [reflexivity|]. simpl. fold g.
  split; [|split; [|split]].
  - unfold getVersion. simpl. rewrite find_map_same by (intros x; now rewrite Hid).
    destruct (find _ (versions st)) as [v|] eqn:E; [|reflexivity].
    apply find_some in E as [_ E]. simpl. unfold g. now rewrite E.
  - intros id Hne. unfold getVersion. simpl.
    rewrite find_map_same by (intros x; now rewrite Hid).
    destruct (find _ (versions st)) as [v|] eqn:E; [|reflexivity].
    apply find_some in E as [_ E]. apply Nat.eqb_eq in E. simpl. unfold g.
    replace (Nat.eqb (vr_id v) versionId) with false by (symmetry; apply Nat.eqb_neq; lia).
    reflexivity.
  - rewrite map_map. apply map_ext. intros v. unfold g. now destruct (Nat.eqb _ _).
  - reflexivity.
Qed.

(** ** The [repository_commits] table *)

Lemma find_filter_key (t : commits) (k r : string) :
  r <> k ->
  find (fun e => String.eqb (fst e) r) (filter (fun e => negb (String.eqb (fst e) k)) t) =
  find (fun e => String.eqb (fst e) r) t.
Proof.
  intros Hne. induction t as [|[a b] t IH]; [reflexivity|]. simpl.
  destruct (String.eqb a k) eqn:Ek; simpl.
  - apply String.eqb_eq in Ek. subst a.
    destruct (String.eqb k r) eqn:Er; [apply String.eqb_eq in Er; congruence|exact IH].
  - destruct (String.eqb a r); [reflexivity|exact IH].
Qed.

Lemma nodup_save (t : commits) (k h : string) :
  NoDup (map fst t) -> NoDup (map fst (saveLastCommitForRepo k h t)).
Proof.
  unfold saveLastCommitForRepo. induction t as [|[a b] t IH]; intros Hnd.
  - simpl. repeat constructor. tauto.
  - simpl in Hnd. inversion Hnd as [|? ? Hnotin Hnd']; subst.
    simpl. destruct (String.eqb a k) eqn:E; simpl; [now apply IH|].
    constructor; [|now apply IH].
    rewrite map_app. intros Hin. apply in_app_or in Hin as [Hin|[Hin|[]]].
    + apply in_map_iff in Hin as [[x y] [Hx Hin]]. simpl in Hx. subst x.
      apply filter_In in Hin as [Hin _]. apply Hnotin. now apply (in_map fst) in Hin.
    + simpl in Hin. subst k. now rewrite String.eqb_refl in E.
Qed.

(** After [saveLastCommitForRepo(repoPath, hash)],
    [getLastCommitForRepo(repoPath)] returns [hash], the lookups of other
    repositories are unchanged, and the table keeps one row per
    repository. *)
Theorem saveLastCommitForRepo_round_trip (repoPath commitHash : string) (t : commits) :
  getLastCommitForRepo repoPath (saveLastCommitForRepo repoPath commitHash t) = Some commitHash /\
  (forall r, r <> repoPath ->
     getLastCommitForRepo r (saveLastCommitForRepo repoPath commitHash t) =
     getLastCommitForRepo r t) /\
  (NoDup (map fst t) -> NoDup (map fst (saveLastCommitForRepo repoPath commitHash t))).
Proof.
  split; [|split; [|apply nodup_save]].
  - unfold getLastCommitForRepo, saveLastCommitForRepo. rewrite find_app.
    replace (find _ (filter _ t)) with (@None (string * string)).
    + simpl. now rewrite String.eqb_refl.
    + symmetry. apply find_none_of. intros [a b] Hin. apply filter_In in Hin as [_ Hin].
      simpl in *. now apply negb_true_iff in Hin.
  - intros r Hne. unfold getLastCommitForRepo, saveLastCommitForRepo. rewrite find_app.
    rewrite find_filter_key by exact Hne.
    destruct (find _ t) as [x|] eqn:E; [reflexivity|]. simpl.
    destruct (String.eqb repoPath r) eqn:Er; [apply String.eqb_eq in Er; congruence|].
    reflexivity.
Qed.

(** ** [saveCurrentVersion] *)

(** The [llmcheckpoint.saveVersion] command does nothing without an active
    editor or when the document has no unsaved changes.  Otherwise it
    always adds exactly one snapshot holding the document's text, numbered
    one above the file's highest number and made current, creating the file
    record first when the path has none; unlike the save handler it does
    not compare the text with the latest snapshot. *)
Theorem saveCurrentVersion_adds (fk : bool) :
  (forall st, saveCurrentVersion fk None st = Ok tt st) /\
  (forall d st, doc_dirty d = false -> saveCurrentVersion fk (Some d) st = Ok tt st) /\
  (forall d st, doc_dirty d = true ->
     exists f v st', saveCurrentVersion fk (Some d) st = Ok tt st' /\
       getFile (doc_path d) st' = Some f /\
       versions st' = versions st ++ [v] /\ file_id v = fr_id f /\
       content v = doc_text d /\
       version_number v = max_version (fr_id f) (versions st) + 1 /\
       getCurrentVersion (fr_id f) st' = Some v).
Proof.
  split; [reflexivity|]. split.
  { intros d st Hd. unfold saveCurrentVersion. now rewrite Hd. }
  intros d st Hd. unfold saveCurrentVersion. rewrite Hd. cbn [negb].
  unfold try_catch, bind at 1, query at 1.
  destruct (getFile (doc_path d) st) as [f|] eqn:Hg.
  - unfold bind at 1, ret at 1.
    destruct (createVersion_current fk (fr_id f) (doc_text d) st (file_exists_of_find _ _ _ Hg))
      as [v [st' [Hrun [Hv [Hfv [Hc [Hn [Hfiles Hcur]]]]]]]].
    unfold bind at 1. rewrite Hrun.
    exists (set_current (fr_id f) (vr_id v) f), v, st'. split; [reflexivity|].
    rewrite fr_id_set_current. split.
    + unfold getFile in *. rewrite Hfiles, getFile_map_set_current, Hg. reflexivity.
    + now repeat split.
  - unfold bind at 1. rewrite (createFile_fresh _ _ Hg). cbv zeta.
    set (i := next_rowid (files_seq st) (map fr_id (files st))).
    set (r := mkFileRecord i (doc_path d) None).
    set (st1 := mkStore (files st ++ [r]) (versions st) i (versions_seq st)).
    assert (Hex : file_exists (fr_id r) st1 = true).
    { unfold file_exists. simpl. rewrite existsb_app. simpl. now rewrite Nat.eqb_refl, orb_true_r. }
    destruct (createVersion_current fk (fr_id r) (doc_text d) st1 Hex)
      as [v [st' [Hrun [Hv [Hfv [Hc [Hn [Hfiles Hcur]]]]]]]].
    unfold bind at 1. rewrite Hrun.
    exists (set_current (fr_id r) (vr_id v) r), v, st'. split; [reflexivity|].
    rewrite fr_id_set_current. split.
    + unfold getFile in *. rewrite Hfiles, getFile_map_set_current. simpl.
      rewrite find_app, Hg. simpl. now rewrite String.eqb_refl.
    + split; [exact Hv|]. split; [exact Hfv|]. split; [exact Hc|]. split; [exact Hn|exact Hcur].
Qed.

(** ** [handleGitCommit] on any store *)

Lemma final_try_catch (m : DB unit) (st : store) :
  try_catch m st = Ok tt (final_store (m st)).
Proof. unfold try_catch. now destruct (m st) as [[] st'|e st']. Qed.

Lemma forM_inv {A} (P : store -> Prop) (l : list A) (f : A -> DB unit) :
  (forall a st, In a l -> P st -> P (final_store (f a st))) ->
  forall st, P st -> P (final_store (forM_ l f st)).
Proof.
  intros Hf. induction l as [|a l IH]; intros st Hst; [exact Hst|].
  cbn [forM_]. unfold bind. pose proof (Hf a st (or_introl eq_refl) Hst) as H.
  destruct (f a st) as [u st'|e st']; [|exact H].
  apply IH; [intros b s Hb; apply Hf; now right|exact H].
Qed.

Lemma existsb_eqb_In (x : string) (l : list string) :
  existsb (String.eqb x) l = true <-> In x l.
Proof.
  rewrite existsb_exists. split.
  - intros [y [Hy E]]. apply String.eqb_eq in E. now subst.
  - intros H. exists x. split; [exact H|apply String.eqb_refl].
Qed.

(** Whatever [handleGitCommit] does is a sequence of [updateVersion] and
    (with [autoCleanup]) [deleteVersion] calls on snapshots of the files of
    the commit, and it never fails; a property of stores that these calls
    keep holds at its end, and the file records do not change. *)
Lemma handleGitCommit_inv (fk : bool) (normalize : string -> string)
    (changed : list string) (hash msg : option string) (autoCleanup : bool)
    (P : store -> Prop) (st0 : store) :
  (forall g st w nc lbl, In g (files st0) -> In (normalize (file_path g)) changed ->
     P st -> In w (versions st) -> file_id w = fr_id g ->
     P (final_store (updateVersion (vr_id w) nc lbl st))) ->
  (autoCleanup = true ->
   forall g str st w, In g (files st0) -> In (normalize (file_path g)) changed ->
     P str -> In w (versions str) -> file_id w = fr_id g -> P st ->
     P (final_store (deleteVersion fk (vr_id w) st))) ->
  P st0 ->
  handleGitCommit fk normalize changed hash msg autoCleanup st0 =
    Ok tt (final_store (handleGitCommit fk normalize changed hash msg autoCleanup st0)) /\
  P (final_store (handleGitCommit fk normalize changed hash msg autoCleanup st0)) /\
  files (final_store (handleGitCommit fk normalize changed hash msg autoCleanup st0)) = files st0.
Proof.
  intros Hupd Hdel H0. unfold handleGitCommit. rewrite final_try_catch.
  split; [reflexivity|]. cbn [final_store].
  set (Q := fun st => P st /\ files st = files st0).
  enough (HQ : Q (final_store
    (match hash, msg with
     | Some h, Some m =>
         if String.eqb h "" || is_blank m then ret tt else
         allFiles <- query getAllFiles ;;
         forM_ allFiles (fun file =>
           if negb (existsb (String.eqb (normalize (file_path file))) changed)
           then ret tt
           else
             (vs <- query (getFileVersions (fr_id file) 10) ;;
              match vs with
              | [] => ret tt
              | latestVersion :: _ =>
                  let newContent := labelled_content m (content latestVersion) in
                  _ <- updateVersion (vr_id latestVersion) newContent m ;;
                  (if autoCleanup
                   then forM_ vs (fun v => deleteVersion fk (vr_id v))
                   else ret tt)
              end))
     | _, _ => ret tt
     end st0))) by exact HQ.
  assert (HQ0 : Q st0) by (split; [exact H0|reflexivity]).
  destruct hash as [h|]; [|exact HQ0]. destruct msg as [m|]; [|exact HQ0].
  destruct (String.eqb h "" || is_blank m); [exact HQ0|].
  unfold bind at 1, query at 1. apply forM_inv; [|exact HQ0].
  intros g st Hg [HP Hfiles]. unfold getAllFiles in Hg.
  destruct (existsb (String.eqb (normalize (file_path g))) changed) eqn:Ech;
    [|split; assumption].
  apply existsb_eqb_In in Ech. cbn [negb].
  unfold bind at 1, query at 1.
  pose proof (in_getFileVersions (fr_id g) 10 st) as Hin.
  destruct (getFileVersions (fr_id g) 10 st) as [|latest rest] eqn:Evs;
    [split; assumption|].
  cbv zeta. unfold bind at 1.
  destruct (Hin latest (or_introl eq_refl)) as [Hl Hlf].
  pose proof (Hupd g st latest (labelled_content m (content latest)) m Hg Ech HP Hl Hlf) as HP1.
  destruct (updateVersion (vr_id latest) (labelled_content m (content latest)) m st)
    as [u st1|e st1] eqn:Eu; [|discriminate].
  assert (Hf1 : files st1 = files st0).
  { unfold updateVersion in Eu. injection Eu as _ E. rewrite <- E. exact Hfiles. }
  destruct autoCleanup eqn:Eac; [|split; assumption].
  apply forM_inv; [|split; assumption].
  intros w s Hw [HPs Hfs]. destruct (Hin w Hw) as [Hw' Hwf].
  split.
  - exact (Hdel eq_refl g st s w Hg Ech HP Hw' Hwf HPs).
  - pose proof (deleteVersion_spec fk (vr_id w) s) as Hs.
    destruct (deleteVersion fk (vr_id w) s) as [[] s'|e s']; simpl;
      destruct Hs as [Hs _]; congruence.
Qed.

(** Without auto-cleanup, [handleGitCommit] never fails, never deletes a
    snapshot and never renumbers one: every snapshot keeps its id, its file
    and its version number, and the file records with their pointers stay
    as they were (only contents and labels change). *)
Theorem handleGitCommit_no_cleanup_keeps_rows (fk : bool) (normalize : string -> string)
    (changedFiles : list string) (commitHash commitMessage : option string) (st : store) :
  exists st', handleGitCommit fk normalize changedFiles commitHash commitMessage false st
                = Ok tt st' /\
    files st' = files st /\
    map (fun v => (vr_id v, file_id v, version_number v)) (versions st') =
      map (fun v => (vr_id v, file_id v, version_number v)) (versions st).
Proof.
  set (P := fun s : store => map (fun v => (vr_id v, file_id v, version_number v)) (versions s) =
                  map (fun v => (vr_id v, file_id v, version_number v)) (versions st)).
  destruct (handleGitCommit_inv fk normalize changedFiles commitHash commitMessage false P st)
    as [Hrun [HP Hf]].
  - intros g s w nc lbl _ _ Hs _ _. unfold P in *. simpl. rewrite <- Hs, map_map.
    apply map_ext. intros x. now destruct (Nat.eqb (vr_id x) (vr_id w)).
  - discriminate.
  - reflexivity.
  - eexists. split; [exact Hrun|]. split; [exact Hf|exact HP].
Qed.

Lemma nodup_map_inj {A B} (h : A -> B) (l : list A) (a b : A) :
  NoDup (map h l) -> In a l -> In b l -> h a = h b -> a = b.
Proof.
  induction l as [|x l IH]; [intros _ []|]. intros Hnd Ha Hb Hab.
  simpl in Hnd. inversion Hnd as [|? ? Hnot Hnd']; subst.
  destruct Ha as [<-|Ha]; destruct Hb as [<-|Hb]; try reflexivity.
  - exfalso. apply Hnot. rewrite Hab. now apply in_map.
  - exfalso. apply Hnot. rewrite <- Hab. now apply in_map.
  - now apply IH.
Qed.

Lemma nodup_map_filter {A B} (h : A -> B) (p : A -> bool) (l : list A) :
  NoDup (map h l) -> NoDup (map h (filter p l)).
Proof.
  induction l as [|x l IH]; intros Hnd; [constructor|].
  simpl in Hnd. inversion Hnd as [|? ? Hnot Hnd']; subst. simpl.
  destruct (p x); [|now apply IH]. simpl. constructor; [|now apply IH].
  intros Hin. apply in_map_iff in Hin as [y [Hy Hin]]. apply filter_In in Hin as [Hin _].
  apply Hnot. rewrite <- Hy. now apply in_map.
Qed.

(** The snapshots of a file that the commit does not touch survive
    [handleGitCommit] unchanged, whatever the settings: with snapshot ids
    unique (the [versions] primary key), a snapshot whose file records all
    have a normalized path outside [changedFiles] is still in the store,
    as it was, and the file records are unchanged. *)
Theorem handleGitCommit_other_files_untouched (fk : bool) (normalize : string -> string)
    (changedFiles : list string) (commitHash commitMessage : option string)
    (autoCleanup : bool) (st : store) (v : VersionRecord)
    (Hids : NoDup (map vr_id (versions st))) (Hv : In v (versions st))
    (Hout : forall f, In f (files st) -> fr_id f = file_id v ->
                      ~ In (normalize (file_path f)) changedFiles) :
  exists st', handleGitCommit fk normalize changedFiles commitHash commitMessage autoCleanup st
                = Ok tt st' /\
    In v (versions st') /\ files st' = files st.
Proof.
  set (P := fun s : store => NoDup (map vr_id (versions s)) /\ In v (versions s)).
  assert (Hne : forall g s w, In g (files st) -> In (normalize (file_path g)) changedFiles ->
                  P s -> In w (versions s) -> file_id w = fr_id g -> vr_id w <> vr_id v).
  { intros g s w Hg Hch [Hnd Hvs] Hw Hwf Heq.
    assert (w = v) by exact (nodup_map_inj vr_id _ w v Hnd Hw Hvs Heq). subst w.
    exact (Hout g Hg (eq_sym Hwf) Hch). }
  destruct (handleGitCommit_inv fk normalize changedFiles commitHash commitMessage autoCleanup
              P st) as [Hrun [[_ HP] Hf]].
  - intros g s w nc lbl Hg Hch Hs Hw Hwf.
    pose proof (Hne g s w Hg Hch Hs Hw Hwf) as Hd. destruct Hs as [Hnd Hvs].
    unfold P. simpl. split.
    + rewrite map_map. erewrite map_ext; [exact Hnd|].
      intros x. now destruct (Nat.eqb (vr_id x) (vr_id w)).
    + replace v with (if Nat.eqb (vr_id v) (vr_id w)
                      then mkVersionRecord (vr_id v) (file_id v) nc (version_number v) (Some lbl)
                      else v) at 1.
      * exact (in_map (fun x => if Nat.eqb (vr_id x) (vr_id w)
                       then mkVersionRecord (vr_id x) (file_id x) nc (version_number x) (Some lbl)
                       else x) _ _ Hvs).
      * replace (Nat.eqb (vr_id v) (vr_id w)) with false by (symmetry; apply Nat.eqb_neq; congruence).
        reflexivity.
  - intros _ g str s w Hg Hch Hstr Hw Hwf [Hnd Hvs].
    pose proof (Hne g str w Hg Hch Hstr Hw Hwf) as Hd.
    pose proof (deleteVersion_spec fk (vr_id w) s) as Hs.
    destruct (deleteVersion fk (vr_id w) s) as [[] s'|e s']; simpl.
    + destruct Hs as [_ Hvers]. unfold P. rewrite Hvers. split.
      * now apply nodup_map_filter.
      * apply filter_In. split; [exact Hvs|]. apply negb_true_iff, Nat.eqb_neq. congruence.
    + destruct Hs as [-> _]. split; assumption.
  - split; assumption.
  - eexists. split; [exact Hrun|]. split; [exact HP|exact Hf].
Qed.

Lemma handleGitCommit_other_files_untouched_witness :
  exists st', handleGitCommit false (fun p => p) ["a.txt"]%string (Some "c0ffee"%string)
                (Some "fix bug"%string) true (store_a_b false) = Ok tt st' /\
    In (mkVersionRecord 4 2 "w1" 1 None) (versions st') /\ files st' = files (store_a_b false).
Proof.
  apply handleGitCommit_other_files_untouched.
  - vm_compute. repeat constructor; simpl; intuition lia.
  - vm_compute. do 3 right. now left.
  - intros f Hf Heq. vm_compute in Hf.
    destruct Hf as [<-|[<-|[]]]; vm_compute in Heq; [discriminate|].
    vm_compute. intros [H|[]]. discriminate.
Defined.

(** ** The commit header *)

Lemma strip_no_marker (s : string) :
  occurs marker_prefix s = false -> forall fuel, strip_markers_fuel fuel s = s.
Proof.
  intros H fuel. revert s H. induction fuel as [|fuel IH]; intros s H; [reflexivity|].
  destruct s as [|a s']; [reflexivity|].
  change (String.prefix marker_prefix (String a s') || occurs marker_prefix s' = false) in H.
  apply orb_false_iff in H as [Hp Ho]. cbn [strip_markers_fuel]. rewrite Hp.
  now rewrite IH.
Qed.

Lemma take_line_app (a b : string) :
  no_line_terminator a = true ->
  take_line (String.append a b) = (String.append a (fst (take_line b)), snd (take_line b)).
Proof.
  induction a as [|x a IH]; intros H; simpl; [now destruct (take_line b)|].
  simpl in H. apply andb_true_iff in H as [Hx Ha]. apply negb_true_iff in Hx.
  rewrite Hx, IH by exact Ha. reflexivity.
Qed.

Lemma no_line_terminator_app (a b : string) :
  no_line_terminator a = true -> no_line_terminator b = true ->
  no_line_terminator (String.append a b) = true.
Proof.
  induction a as [|x a IH]; intros Ha Hb; simpl; [exact Hb|].
  simpl in Ha. apply andb_true_iff in Ha as [Hx Ha]. rewrite Hx. now apply IH.
Qed.

Lemma substring_0_full (s : string) (k : nat) :
  String.length s <= k -> String.substring 0 k s = s.
Proof.
  revert k. induction s as [|a s IH]; intros k Hk; destruct k as [|k]; simpl in *;
    try reflexivity; try lia.
  rewrite IH by lia. reflexivity.
Qed.

Lemma substring_app (a b : string) (k : nat) :
  String.substring (String.length a) k (String.append a b) = String.substring 0 k b.
Proof. induction a as [|x a IH]; simpl; [reflexivity|exact IH]. Qed.

Lemma ends_with_app (a suf : string) : ends_with suf (String.append a suf) = true.
Proof.
  unfold ends_with. rewrite string_length_append.
  replace (String.length a + String.length suf - String.length suf) with (String.length a) by lia.
  rewrite substring_app, substring_0_full by lia.
  rewrite String.eqb_refl, andb_true_r. apply Nat.leb_le. lia.
Qed.

Lemma label_split (m c : string) :
  labelled_content m c =
  String.append marker_prefix
    (String.append (String.append (String.append " " (String.append m " ")) marker_close)
       (String nl (strip_commit_markers c))).
Proof.
  unfold labelled_content. rewrite <- !string_append_assoc. reflexivity.
Qed.

Lemma string_append_nil_r (s : string) : String.append s EmptyString = s.
Proof. induction s as [|a s IH]; simpl; [reflexivity|now rewrite IH]. Qed.

Lemma prefix_app (p x : string) : String.prefix p (String.append p x) = true.
Proof.
  induction p as [|a p IH]; simpl; [now destruct x|].
  destruct (ascii_dec a a) as [_|n]; [exact IH|now contradiction n].
Qed.

Lemma strip_step_marker (fuel : nat) (a : ascii) (s' seg after : string) :
  String.prefix marker_prefix (String a s') = true ->
  take_line (String.substring (String.length marker_prefix) (String.length (String a s'))
               (String a s')) = (seg, String nl after) ->
  ends_with marker_close seg = true ->
  strip_markers_fuel (S fuel) (String a s') = strip_markers_fuel fuel after.
Proof.
  intros Hp Ht He. cbn [strip_markers_fuel]. rewrite Hp, Ht, He.
  unfold nl at 1. simpl. reflexivity.
Qed.

Lemma strip_label (m c : string) :
  no_line_terminator m = true -> occurs marker_prefix c = false ->
  strip_commit_markers (labelled_content m c) = c.
Proof.
  intros Hm Hc.
  assert (Hsc : strip_commit_markers c = c) by (apply strip_no_marker; exact Hc).
  rewrite label_split, Hsc. unfold strip_commit_markers.
  set (seg := String.append (String.append " " (String.append m " ")) marker_close).
  assert (Hseg : no_line_terminator seg = true).
  { unfold seg. apply no_line_terminator_app; [|reflexivity].
    apply (no_line_terminator_app " "); [reflexivity|].
    apply no_line_terminator_app; [exact Hm|reflexivity]. }
  set (X := String.append seg (String nl c)).
  change (String.append marker_prefix X) with (String "/" (String.append "* Git commit:" X)).
  cbn [String.length].
  rewrite (strip_step_marker _ _ _ seg c).
  - apply strip_no_marker. exact Hc.
  - change (String "/" (String.append "* Git commit:" X)) with (String.append marker_prefix X).
    apply prefix_app.
  - change (String "/" (String.append "* Git commit:" X)) with (String.append marker_prefix X).
    change (S (String.length (String.append "* Git commit:" X)))
      with (String.length (String.append marker_prefix X)).
    rewrite substring_app, substring_0_full by (rewrite string_length_append; lia).
    unfold X. rewrite take_line_app by exact Hseg.
    change (take_line (String nl c)) with (EmptyString, String nl c).
    cbn [fst snd]. now rewrite string_append_nil_r.
  - unfold seg. apply ends_with_app.
Qed.

(** Relabelling in [handleGitCommit]: the new content built for a commit
    first strips the previous commit label, so labelling a snapshot whose
    body has no commit marker with message [m1] and then with [m2] gives the
    same content as labelling the body with [m2] directly; labels do not
    pile up (provided [m1] is a single line). *)
Lemma labelled_content_relabel (m1 m2 c : string)
  (Hm1 : no_line_terminator m1 = true) (Hc : occurs marker_prefix c = false) :
  labelled_content m2 (labelled_content m1 c) = labelled_content m2 c.
Proof.
  assert (Hs : strip_commit_markers (labelled_content m1 c) = strip_commit_markers c).
  { rewrite (strip_label m1 c Hm1 Hc). unfold strip_commit_markers.
    symmetry. apply strip_no_marker. exact Hc. }
  unfold labelled_content at 1. rewrite Hs. reflexivity.
Qed.

Lemma labelled_content_relabel_witness :
  labelled_content "later" (labelled_content "fix bug" "x") = labelled_content "later" "x".
Proof. apply labelled_content_relabel; vm_compute; reflexivity. Defined.

(** ** The repository watcher *)

Lemma getLast_after_save (t : commits) (k h : string) :
  getLastCommitForRepo k (saveLastCommitForRepo k h t) = Some h.
Proof.
  unfold getLastCommitForRepo, saveLastCommitForRepo. rewrite find_app.
  replace (find _ (filter _ t)) with (@None (string * string)).
  - simpl. now rewrite String.eqb_refl.
  - symmetry. apply find_none_of. intros [a b] Hin. apply filter_In in Hin as [_ Hin].
    simpl in *. destruct (String.eqb a k); [discriminate|reflexivity].
Qed.

(** One tick of the repository poll.  When there is no HEAD commit, or it
    is the last one seen, or the [git log] command fails, the tick changes
    nothing (in particular [lastKnownCommit] is not advanced, so a failed
    [git log] is retried on the next tick).  Otherwise the new HEAD becomes
    [lastKnownCommit]; if the log names no file the database and the
    [repository_commits] table are left as they were, and if it names some
    the HEAD commit is recorded as the last commit of the repository. *)
Theorem poll_tick (fk : bool) (normalize : string -> string)
    (relative_to_repo : string -> string -> string) (head : option string)
    (repoPath : string) (gitLog : option string) (message : string)
    (autoCleanup : bool) (w : watcher) :
  let w' := poll fk normalize relative_to_repo head repoPath gitLog message autoCleanup w in
  ((head = None \/ head = Some ""%string \/ head = Some (lastKnownCommit w)) -> w' = w) /\
  (gitLog = None -> w' = w) /\
  (forall h stdout, head = Some h -> h <> ""%string -> h <> lastKnownCommit w ->
     gitLog = Some stdout ->
     lastKnownCommit w' = h /\
     (changed_files relative_to_repo repoPath stdout = [] ->
        db w' = db w /\ repo_commits w' = repo_commits w) /\
     (changed_files relative_to_repo repoPath stdout <> [] ->
        getLastCommitForRepo repoPath (repo_commits w') = Some h)).
Proof.
  intros w'. unfold w', poll. split; [|split].
  - intros [->|[->| ->]]; [reflexivity|reflexivity|].
    now rewrite String.eqb_refl, orb_true_r.
  - intros ->. now destruct (_ || _).
  - intros h stdout -> Hh Hl ->.
    replace (String.eqb h "" || String.eqb h (lastKnownCommit w)) with false
      by (symmetry; apply orb_false_iff; split; now apply String.eqb_neq).
    destruct (changed_files relative_to_repo repoPath stdout) as [|f fs].
    + split; [reflexivity|split; [intros _; split; reflexivity|intros Hc; now contradiction Hc]].
    + split; [reflexivity|split; [intros Hc; discriminate Hc|]].
      intros _. simpl. apply getLast_after_save.
Qed.

(** A commit whose message is blank (for example because
    [getLatestCommitMessage] failed and returned ['']) never changes the
    snapshots: the poll leaves the database as it was.  It still advances
    [lastKnownCommit] past the commit, so its snapshots are never
    labelled later. *)
Theorem poll_blank_message (fk : bool) (normalize : string -> string)
    (relative_to_repo : string -> string -> string) (head : option string)
    (repoPath : string) (gitLog : option string) (message : string)
    (autoCleanup : bool) (w : watcher)
    (Hblank : is_blank message = true) :
  let w' := poll fk normalize relative_to_repo head repoPath gitLog message autoCleanup w in
  db w' = db w /\
  (forall h stdout, head = Some h -> h <> ""%string -> h <> lastKnownCommit w ->
     gitLog = Some stdout -> lastKnownCommit w' = h).
Proof.
  intros w'. unfold w', poll. split.
  - destruct (_ || _); [reflexivity|].
    destruct gitLog as [stdout|]; [|reflexivity].
    destruct (changed_files relative_to_repo repoPath stdout) as [|f fs]; [reflexivity|].
    simpl. destruct head as [h|]; simpl; [|reflexivity].
    unfold handleGitCommit. rewrite Hblank, orb_true_r. reflexivity.
  - intros h stdout -> Hh Hl ->.
    replace (String.eqb h "" || String.eqb h (lastKnownCommit w)) with false
      by (symmetry; apply orb_false_iff; split; now apply String.eqb_neq).
    now destruct (changed_files relative_to_repo repoPath stdout).
Qed.

Lemma poll_blank_message_witness :
  is_blank ""%string = true /\
  let w' := poll false (fun p => p) (fun _ p => p) (Some "h2"%string) "r"
              (Some "a.txt"%string) "" true (mkWatcher "h1" store_one_file []) in
  db w' = store_one_file /\
  (forall h stdout, Some "h2"%string = Some h -> h <> ""%string -> h <> "h1"%string ->
     Some "a.txt"%string = Some stdout -> lastKnownCommit w' = h).
Proof.
  split; [reflexivity|].
  exact (poll_blank_message false (fun p => p) (fun _ p => p) (Some "h2"%string) "r"
           (Some "a.txt"%string) "" true (mkWatcher "h1" store_one_file []) eq_refl).
Defined.

(** ** Export and append to a history file *)

Lemma export_success_inv (path_join : string -> string -> string)
    (dirname : string -> string) (workspace : option string) (version : VersionRecord)
    (filePath : string) (m m1 : fs) :
  exportVersionToFile path_join dirname workspace version filePath m = inr m1 ->
  let p := resolve_path path_join filePath m in
  content version <> ""%string /\ workspace <> None /\ dirname p <> p /\
  stat (dirname p) m1 = Some DirNode /\
  stat p m1 = Some (FileNode (exported_block p (content version))) /\
  (forall q, q <> p -> stat q m1 = stat q m \/ (stat q m = None /\ stat q m1 = Some DirNode)).
Proof.
  intros H p. unfold exportVersionToFile in H. cbv zeta in H. fold p in H.
  destruct (String.eqb (content version) "") eqn:Ec; [discriminate|].
  apply String.eqb_neq in Ec.
  destruct workspace as [ws|]; [|discriminate].
  unfold mkdir_recursive in H.
  destruct (mkdir_p dirname (String.length (dirname p)) (dirname p) m) as [e|m0] eqn:Hm;
    [discriminate|].
  destruct (mkdir_p_ok _ _ _ _ _ Hm) as [Hd0 Hq0].
  unfold writeFile in H.
  destruct (stat p m0) as [[d|]|] eqn:Hp0; try discriminate;
    injection H as <-;
    (assert (Hne : dirname p <> p) by (intros He; rewrite He in Hd0; congruence));
    (split; [exact Ec|split; [discriminate|split; [exact Hne|]]]);
    (split; [rewrite stat_fs_set; apply String.eqb_neq in Hne;
             rewrite String.eqb_sym, Hne; exact Hd0|]);
    (split; [rewrite stat_fs_set, String.eqb_refl; reflexivity|]);
    intros q Hq; rewrite stat_fs_set;
    (replace (String.eqb p q) with false
       by (symmetry; apply String.eqb_neq; congruence));
    apply Hq0.
Qed.

Lemma resolve_after_export (path_join : string -> string -> string)
    (dirname : string -> string) (workspace : option string) (version : VersionRecord)
    (filePath : string) (m m1 : fs) :
  exportVersionToFile path_join dirname workspace version filePath m = inr m1 ->
  resolve_path path_join filePath m1 = resolve_path path_join filePath m.
Proof.
  intros H.
  destruct (export_success_inv path_join dirname workspace version filePath m m1 H)
    as (_ & _ & _ & _ & Hp1 & Hq).
  set (p := resolve_path path_join filePath m) in *.
  destruct (String.eqb filePath p) eqn:E1.
  { apply String.eqb_eq in E1. unfold resolve_path at 1. rewrite E1, Hp1. reflexivity. }
  apply String.eqb_neq in E1.
  destruct (Hq filePath E1) as [Hs|[Hs0 Hs1]].
  - unfold resolve_path at 1. rewrite Hs. reflexivity.
  - unfold resolve_path at 1. rewrite Hs1.
    unfold p, resolve_path in E1 |- *. rewrite Hs0 in E1 |- *.
    destruct (ends_with_separator filePath); [reflexivity|now contradiction E1].
Qed.

(** [exportVersionToFile] fails with a missing-content error on an empty
    snapshot, with a no-workspace error when no folder is open, and when
    a file is in the way of the destination's directory.  When it
    succeeds, the destination holds exactly
    [Version from <path>\n\n<content>], whatever it held before (an
    existing history file is overwritten, not appended to), its directory
    exists, and every other path either is unchanged or is a directory
    that was missing and has been created. *)
Theorem exportVersionToFile_overwrites (path_join : string -> string -> string)
    (dirname : string -> string) (workspace : option string) (version : VersionRecord)
    (filePath : string) (m : fs) :
  let p := resolve_path path_join filePath m in
  (content version = ""%string ->
     exportVersionToFile path_join dirname workspace version filePath m = inl MissingContent) /\
  (content version <> ""%string -> workspace = None ->
     exportVersionToFile path_join dirname workspace version filePath m = inl NoWorkspace) /\
  (forall x, content version <> ""%string -> workspace <> None ->
     stat (dirname p) m = Some (FileNode x) ->
     exportVersionToFile path_join dirname workspace version filePath m = inl NotADirectory) /\
  (forall m1, exportVersionToFile path_join dirname workspace version filePath m = inr m1 ->
     stat p m1 = Some (FileNode (exported_block p (content version))) /\
     stat (dirname p) m1 = Some DirNode /\
     (forall q, q <> p ->
        stat q m1 = stat q m \/ (stat q m = None /\ stat q m1 = Some DirNode))).
Proof.
  intros p. split; [|split; [|split]].
  - intros Hc. unfold exportVersionToFile. now rewrite Hc.
  - intros Hc ->. unfold exportVersionToFile.
    apply String.eqb_neq in Hc. now rewrite Hc.
  - intros x Hc Hw Hd. unfold exportVersionToFile. cbv zeta. fold p.
    apply String.eqb_neq in Hc. rewrite Hc.
    destruct workspace as [ws|]; [|now contradiction Hw].
    unfold mkdir_recursive. now rewrite (mkdir_p_file _ _ _ _ _ Hd).
  - intros m1 H.
    destruct (export_success_inv path_join dirname workspace version filePath m m1 H)
      as (_ & _ & _ & Hd1 & Hp1 & Hq).
    split; [exact Hp1|split; [exact Hd1|exact Hq]].
Qed.

(** Exporting a snapshot and then appending another one to the same
    configured path composes: the append goes to the file the export
    wrote, which then holds the exported block followed by the appended
    block. *)
Theorem export_then_append (path_join : string -> string -> string)
    (dirname : string -> string) (workspace : string) (v1 v2 : VersionRecord)
    (filePath : string) (m m1 : fs)
    (Hexp : exportVersionToFile path_join dirname (Some workspace) v1 filePath m = inr m1)
    (Hc2 : content v2 <> ""%string) :
  let p := resolve_path path_join filePath m in
  exists m2,
    appendVersionToFile path_join dirname (Some workspace) v2 filePath m1 = inr m2 /\
    stat p m2 = Some (FileNode (String.append (exported_block p (content v1))
                                  (appended_block p (content v2)))).
Proof.
  intros p.
  destruct (export_success_inv path_join dirname (Some workspace) v1 filePath m m1 Hexp)
    as (_ & _ & Hne & Hd1 & Hp1 & _).
  fold p in Hne, Hd1, Hp1.
  unfold appendVersionToFile. cbv zeta.
  rewrite (resolve_after_export path_join dirname (Some workspace) v1 filePath m m1 Hexp).
  fold p.
  destruct (String.eqb (content v2) "") eqn:Ec; [apply String.eqb_eq in Ec; contradiction|].
  unfold mkdir_recursive. rewrite (mkdir_p_dir _ _ _ _ Hd1). unfold appendFile. rewrite Hp1.
  eexists. split; [reflexivity|].
  rewrite stat_fs_set, String.eqb_refl. reflexivity.
Qed.

Lemma export_then_append_witness :
  let m1 := match exportVersionToFile posix_join posix_dirname (Some "ws"%string)
                    (mkVersionRecord 1 1 "first" 1 None) "out/h.txt" fs_history with
            | inr m1 => m1 | inl _ => [] end in
  exportVersionToFile posix_join posix_dirname (Some "ws"%string)
    (mkVersionRecord 1 1 "first" 1 None) "out/h.txt" fs_history = inr m1 /\
  let p := resolve_path posix_join "out/h.txt" fs_history in
  exists m2,
    appendVersionToFile posix_join posix_dirname (Some "ws"%string)
      (mkVersionRecord 2 1 "second" 2 None) "out/h.txt" m1 = inr m2 /\
    stat p m2 = Some (FileNode (String.append (exported_block p "first")
                                  (appended_block p "second"))).
Proof.
  intros m1.
  assert (H : exportVersionToFile posix_join posix_dirname (Some "ws"%string)
                (mkVersionRecord 1 1 "first" 1 None) "out/h.txt" fs_history = inr m1)
    by (vm_compute; reflexivity).
  split; [exact H|].
  exact (export_then_append posix_join posix_dirname "ws" (mkVersionRecord 1 1 "first" 1 None)
           (mkVersionRecord 2 1 "second" 2 None) "out/h.txt" fs_history m1 H
           ltac:(discriminate)).
Defined.

(** ** The version tree *)

Lemma tree_children_unfold (vs : list VersionRecord) :
  tree_children vs =
  map_index_from (fun index version =>
    (List.length vs - index,
     (if Nat.eqb (List.length vs - index) 1 then "prompt" else "prompts")%string,
     version)) 0 vs.
Proof. reflexivity. Qed.

Lemma map_index_from_parts (n : nat) (l : list VersionRecord) (i : nat) :
  let t := map_index_from (fun index version =>
             (n - index, (if Nat.eqb (n - index) 1 then "prompt" else "prompts")%string,
              version)) i l in
  map snd t = l /\
  map (fun e => fst (fst e)) t = map (fun k => n - k) (seq i (List.length l)) /\
  map (fun e => snd (fst e)) t =
    map (fun k => if Nat.eqb k 1 then "prompt" else "prompts")%string
      (map (fun k => n - k) (seq i (List.length l))).
Proof.
  revert i. induction l as [|v l IH]; intros i; simpl; [repeat split|].
  destruct (IH (S i)) as (H1 & H2 & H3). now rewrite H1, H2, H3.
Qed.

Lemma map_sub_seq (n l i : nat) :
  i + l = n -> map (fun k => n - k) (seq i l) = rev (seq 1 l).
Proof.
  revert i. induction l as [|l IH]; intros i Hi; [reflexivity|].
  simpl (seq i (S l)). rewrite map_cons, (IH (S i)) by lia.
  rewrite seq_S, rev_app_distr. simpl. f_equal. lia.
Qed.

Lemma labels_rev_seq (l : nat) :
  map (fun k => if Nat.eqb k 1 then "prompt" else "prompts")%string (rev (seq 1 (S l))) =
  (repeat "prompts"%string l ++ ["prompt"%string]).
Proof.
  simpl (seq 1 (S l)). simpl rev. rewrite map_app. simpl. f_equal.
  rewrite <- (length_seq l 2) at 2. rewrite <- length_rev, <- map_const.
  apply map_ext_in. intros k Hk. apply in_rev, in_seq in Hk.
  destruct (Nat.eqb k 1) eqn:E; [apply Nat.eqb_eq in E; lia|reflexivity].
Qed.

(** The children of a file in the version tree list its snapshots in the
    order given ([getFileVersions], newest first), labelled
    [n prompts ago], [n-1 prompts ago], ..., [1 prompt ago] for [n]
    snapshots: the newest snapshot gets the largest count and only the
    last child uses the singular ['prompt']. *)
Theorem tree_children_counts (vs : list VersionRecord) :
  map snd (tree_children vs) = vs /\
  map (fun e => fst (fst e)) (tree_children vs) = rev (seq 1 (List.length vs)) /\
  map (fun e => snd (fst e)) (tree_children vs) =
    match vs with
    | [] => []
    | _ :: _ => repeat "prompts"%string (List.length vs - 1) ++ ["prompt"%string]
    end.
Proof.
  rewrite tree_children_unfold.
  destruct (map_index_from_parts (List.length vs) vs 0) as (H1 & H2 & H3).
  rewrite (map_sub_seq (List.length vs)) in H2, H3 by lia.
  split; [exact H1|split; [exact H2|]]. rewrite H3.
  destruct vs as [|v vs]; [reflexivity|].
  simpl (List.length (v :: vs)). rewrite Nat.sub_succ, Nat.sub_0_r. apply labels_rev_seq.
Qed.

Lemma existsb_filter_nonempty {A} (p : A -> bool) (l : list A) :
  existsb p l = Nat.ltb 0 (List.length (filter p l)).
Proof.
  induction l as [|x l IH]; [reflexivity|]. simpl.
  destruct (p x); simpl; [reflexivity|exact IH].
Qed.

(** The root of the version tree is the [files] table, in its order, with
    the files that have no snapshot left out: it lists exactly the tracked
    files that have at least one snapshot. *)
Theorem tree_files_spec (st : store) :
  tree_files st =
    filter (fun f => existsb (fun v => Nat.eqb (file_id v) (fr_id f)) (versions st))
      (getAllFiles st) /\
  (forall f, In f (tree_files st) <->
     In f (getAllFiles st) /\ exists v, In v (versions st) /\ file_id v = fr_id f).
Proof.
  split.
  - unfold tree_files. apply filter_ext. intros f.
    unfold getFileVersions. rewrite length_firstn, (Permutation_length (sort_desc_perm _)).
    rewrite existsb_filter_nonempty. fold (versions_of (fr_id f) (versions st)).
    destruct (List.length (versions_of (fr_id f) (versions st))); reflexivity.
  - intros f. unfold tree_files. rewrite filter_In.
    unfold getFileVersions. rewrite length_firstn, (Permutation_length (sort_desc_perm _)).
    split; intros [Hin H]; split; try exact Hin.
    + apply Nat.ltb_lt in H.
      destruct (versions_of (fr_id f) (versions st)) as [|v l] eqn:E; [simpl in H; lia|].
      exists v. assert (Hv : In v (versions_of (fr_id f) (versions st))) by (rewrite E; now left).
      unfold versions_of in Hv. apply filter_In in Hv as [Hv Hf].
      split; [exact Hv|now apply Nat.eqb_eq].
    + destruct H as [v [Hv Hf]]. apply Nat.ltb_lt.
      assert (Hv' : In v (versions_of (fr_id f) (versions st))).
      { unfold versions_of. apply filter_In. split; [exact Hv|now apply Nat.eqb_eq]. }
      destruct (versions_of (fr_id f) (versions st)) as [|w l]; [destruct Hv'|].
      simpl. lia.
Qed.

(** ** [llmcheckpoint.quickClean] keeps the newest snapshot *)

Lemma getFileVersions_head_max (fid lim : nat) (s : store) (h : VersionRecord)
    (t : list VersionRecord) :
  getFileVersions fid lim s = h :: t -> version_number h = max_version fid (versions s).
Proof.
  unfold getFileVersions.
  pose proof (sort_desc_perm (versions_of fid (versions s))) as Hp.
  pose proof (sort_desc_sorted (versions_of fid (versions s))) as Hs.
  destruct (sort_desc (versions_of fid (versions s))) as [|w rest] eqn:E;
    [destruct lim; discriminate|].
  destruct lim as [|k]; [discriminate|]. simpl. intros H. injection H as <- _.
  assert (Hw : In w (versions_of fid (versions s)))
    by (apply (Permutation_in _ Hp); now left).
  unfold versions_of in Hw. apply filter_In in Hw as [Hw Hwf]. apply Nat.eqb_eq in Hwf.
  apply Nat.le_antisymm; [now apply le_max_version|].
  apply fold_max_le. intros x Hx. apply in_map_iff in Hx as [u [<- Hu]].
  apply (Permutation_in _ (Permutation_sym Hp)) in Hu.
  apply Sorted_StronglySorted in Hs; [|intros a b c Hab Hbc; unfold desc in *; lia].
  destruct Hu as [->|Hu]; [lia|].
  inversion Hs as [|? ? _ Hall]. rewrite Forall_forall in Hall. exact (Hall u Hu).
Qed.

Lemma nodup_firstn {A} (n : nat) (l : list A) : NoDup l -> NoDup (firstn n l).
Proof.
  intros H. rewrite <- (firstn_skipn n l) in H. now apply NoDup_app_remove_r in H.
Qed.

Lemma nodup_getFileVersions (fid lim : nat) (s : store) :
  NoDup (map vr_id (versions s)) -> NoDup (getFileVersions fid lim s).
Proof.
  intros H. apply NoDup_map_inv in H. unfold getFileVersions.
  apply nodup_firstn. apply (Permutation_NoDup (Permutation_sym (sort_desc_perm _))).
  now apply NoDup_filter.
Qed.

Lemma max_version_incl (fid : nat) (l1 l2 : list VersionRecord) :
  incl l1 l2 -> max_version fid l1 <= max_version fid l2.
Proof.
  intros Hi. apply fold_max_le. intros x Hx. apply in_map_iff in Hx as [u [<- Hu]].
  unfold versions_of in Hu. apply filter_In in Hu as [Hu Hf]. apply Nat.eqb_eq in Hf.
  apply le_max_version; [now apply Hi|exact Hf].
Qed.

Lemma fold_max_in (l : list nat) : l <> [] -> In (fold_right Nat.max 0 l) l.
Proof.
  induction l as [|x l IH]; intros Hne; [now contradiction Hne|].
  destruct l as [|y l]; [simpl; left; lia|].
  simpl fold_right. destruct (Nat.max_dec x (Nat.max y (fold_right Nat.max 0 l))) as [E|E];
    rewrite E; [now left|right; apply IH; discriminate].
Qed.

Lemma max_version_attained (vs : list VersionRecord) (v : VersionRecord) :
  In v vs -> exists w, In w vs /\ file_id w = file_id v /\
    version_number w = max_version (file_id v) vs.
Proof.
  intros Hv. unfold max_version.
  assert (Hne : map version_number (versions_of (file_id v) vs) <> []).
  { assert (Hvo : In v (versions_of (file_id v) vs))
      by (apply filter_In; split; [exact Hv|apply Nat.eqb_refl]).
    destruct (versions_of (file_id v) vs); [destruct Hvo|discriminate]. }
  apply fold_max_in, in_map_iff in Hne as [w [Hw Hin]].
  unfold versions_of in Hin. apply filter_In in Hin as [Hin Hf]. apply Nat.eqb_eq in Hf.
  exists w. split; [exact Hin|split; [exact Hf|exact Hw]].
Qed.

Lemma keeps_latest_max (st0 s : store) (fid : nat) (v : VersionRecord) :
  keeps_latest st0 s -> In v (versions st0) -> file_id v = fid ->
  max_version fid (versions s) = max_version fid (versions st0).
Proof.
  intros (_ & _ & Hi & Hw) Hv Hf. subst fid.
  apply Nat.le_antisymm; [now apply max_version_incl|].
  destruct (Hw v Hv) as [w (Hws & Hwf & Hwn)]. rewrite <- Hwn, <- Hwf.
  now apply le_max_version.
Qed.

Lemma quickClean_delete (fk : bool) (st0 s s' : store) (h u : VersionRecord) (fid : nat) :
  keeps_latest st0 s -> In h (versions s) -> file_id h = fid ->
  version_number h = max_version fid (versions s) ->
  In u (versions s) -> file_id u = fid -> vr_id h <> vr_id u ->
  keeps_latest st0 s' -> incl (versions s') (versions s) -> In h (versions s') ->
  let s'' := final_store (deleteVersion fk (vr_id u) s') in
  keeps_latest st0 s'' /\ incl (versions s'') (versions s) /\ In h (versions s'').
Proof.
  intros Hs Hh Hhf Hhn Hu Huf Hhu Hs' Hi's Hh's s''. unfold s'', deleteVersion.
  destruct (fk && version_exists (vr_id u) s' && existsb (points_to (vr_id u)) (files s'));
    [split; [exact Hs'|split; assumption]|].
  simpl. pose proof Hs as (_ & Hnd & _ & _).
  destruct Hs' as (Hf' & Hnd' & Hi' & Hw').
  assert (Hkeep : forall w, In w (versions s') -> vr_id w <> vr_id u ->
            In w (filter (fun v => negb (Nat.eqb (vr_id v) (vr_id u))) (versions s'))).
  { intros w Hw Hne. apply filter_In. split; [exact Hw|].
    apply negb_true_iff, Nat.eqb_neq. exact Hne. }
  split; [split; [exact Hf'|split; [now apply nodup_map_filter|split]]|split].
  - intros x Hx. apply filter_In in Hx as [Hx _]. now apply Hi'.
  - intros v Hv. destruct (Hw' v Hv) as [w (Hw & Hwf & Hwn)].
    destruct (Nat.eq_dec (vr_id w) (vr_id u)) as [E|E].
    + assert (Hwu : w = u) by exact (nodup_map_inj vr_id (versions s) w u Hnd (Hi's w Hw) Hu E).
      subst w. exists h. split; [now apply Hkeep|]. split; [congruence|].
      rewrite Hhn, <- Hhf. rewrite Hhf, <- Huf, Hwf.
      apply (keeps_latest_max st0 s (file_id v) v Hs Hv eq_refl).
    + exists w. split; [now apply Hkeep|]. split; assumption.
  - intros x Hx. apply filter_In in Hx as [Hx _]. now apply Hi's.
  - now apply Hkeep.
Qed.

Lemma quickClean_step (fk : bool) (st0 s : store) (f : FileRecord) :
  keeps_latest st0 s ->
  keeps_latest st0
    (final_store ((vs <- query (getFileVersions (fr_id f) 10) ;;
                   (if Nat.ltb 1 (List.length vs)
                    then forM_ (List.tl vs) (fun v => deleteVersion fk (vr_id v))
                    else ret tt)) s)).
Proof.
  intros Hs. unfold bind, query.
  destruct (Nat.ltb 1 (List.length (getFileVersions (fr_id f) 10 s))); [|exact Hs].
  destruct (getFileVersions (fr_id f) 10 s) as [|h t] eqn:Eg; [exact Hs|]. simpl List.tl.
  pose proof Hs as (_ & Hnd & _ & _).
  assert (Hnv : NoDup (h :: t)) by (rewrite <- Eg; now apply nodup_getFileVersions).
  assert (Hh : In h (versions s) /\ file_id h = fr_id f)
    by (apply (in_getFileVersions (fr_id f) 10); rewrite Eg; now left).
  assert (Ht : forall u, In u t -> In u (versions s) /\ file_id u = fr_id f)
    by (intros u Hu; apply (in_getFileVersions (fr_id f) 10); rewrite Eg; now right).
  pose proof (getFileVersions_head_max _ _ _ _ _ Eg) as Hhmax.
  apply NoDup_cons_iff in Hnv as [Hht _].
  refine (proj1 (forM_inv (fun s' => keeps_latest st0 s' /\ incl (versions s') (versions s) /\ In h (versions s')) t _ _ s _)).
  - intros u s' Hu (Hs' & Hi's & Hh's).
    destruct (Ht u Hu) as [Hu' Huf].
    apply (quickClean_delete fk st0 s s' h u (fr_id f) Hs (proj1 Hh) (proj2 Hh) Hhmax
             Hu' Huf); try assumption.
    intros E. apply Hht.
    rewrite (nodup_map_inj vr_id (versions s) h u Hnd (proj1 Hh) Hu' E). exact Hu.
  - split; [exact Hs|split; [apply incl_refl|exact (proj1 Hh)]].
Qed.

(** [quickClean] never deletes the newest snapshot of a file: when
    version ids are distinct, after the command every file that had a
    snapshot still has one carrying its highest version number, no
    snapshot is created and the [files] table is untouched (also when a
    deletion fails half-way). *)
Theorem quickClean_keeps_latest (fk : bool) (st : store)
    (Hids : NoDup (map vr_id (versions st))) :
  let st' := final_store (quickClean fk st) in
  files st' = files st /\ incl (versions st') (versions st) /\
  (forall v, In v (versions st) ->
     exists w, In w (versions st') /\ file_id w = file_id v /\
       version_number w = max_version (file_id v) (versions st)).
Proof.
  intros st'.
  assert (H : keeps_latest st st').
  { unfold st', quickClean, bind, query.
    apply forM_inv; [intros f s _ Hs; now apply quickClean_step|].
    split; [reflexivity|split; [exact Hids|split; [apply incl_refl|]]].
    intros v Hv. apply max_version_attained. exact Hv. }
  destruct H as (Hf & _ & Hi & Hw). split; [exact Hf|split; [exact Hi|exact Hw]].
Qed.

Lemma quickClean_keeps_latest_witness :
  NoDup (map vr_id (versions (store_three_snapshots false))) /\
  let st' := final_store (quickClean false (store_three_snapshots false)) in
  files st' = files (store_three_snapshots false) /\
  incl (versions st') (versions (store_three_snapshots false)) /\
  (forall v, In v (versions (store_three_snapshots false)) ->
     exists w, In w (versions st') /\ file_id w = file_id v /\
       version_number w = max_version (file_id v) (versions (store_three_snapshots false))).
Proof.
  assert (H : NoDup (map vr_id (versions (store_three_snapshots false)))).
  { vm_compute. repeat constructor; simpl; intuition discriminate. }
  split; [exact H|exact (quickClean_keeps_latest false (store_three_snapshots false) H)].
Defined.

(** ** [handleGitCommit] without auto-cleanup labels the newest snapshot *)

Lemma handleGitCommit_unfold (fk : bool) (normalize : string -> string)
    (changedFiles : list string) (h msg : string) (autoCleanup : bool) :
  handleGitCommit fk normalize changedFiles (Some h) (Some msg) autoCleanup =
  if String.eqb h "" || is_blank msg then try_catch (ret tt)
  else try_catch (allFiles <- query getAllFiles ;;
                  forM_ allFiles (commit_step fk normalize changedFiles msg autoCleanup)).
Proof. unfold handleGitCommit. now destruct (_ || _). Qed.

Lemma forM_app {A} (l1 l2 : list A) (f : A -> DB unit) (st : store) :
  forM_ (l1 ++ l2) f st = bind (forM_ l1 f) (fun _ => forM_ l2 f) st.
Proof.
  revert st. induction l1 as [|a l1 IH]; intros st; [reflexivity|].
  simpl. specialize IH. unfold bind in *.
  destruct (f a st) as [[] st'|e st']; [|reflexivity]. apply IH.
Qed.

Lemma insert_desc_skel (a b : VersionRecord) (l1 l2 : list VersionRecord) :
  skel a = skel b -> map skel l1 = map skel l2 ->
  map skel (insert_desc a l1) = map skel (insert_desc b l2).
Proof.
  intros Hab. revert l2. induction l1 as [|x l1 IH]; intros [|y l2] H; try discriminate.
  - simpl. now rewrite Hab.
  - simpl in H.
    assert (Hxy : skel x = skel y) by congruence.
    assert (Hl : map skel l1 = map skel l2) by congruence.
    assert (Ea : version_number a = version_number b) by (unfold skel in Hab; congruence).
    assert (Ex : version_number x = version_number y) by (unfold skel in Hxy; congruence).
    simpl. rewrite Ea, Ex.
    destruct (Nat.leb (version_number y) (version_number b)); simpl.
    + rewrite Hab, Hxy, Hl. reflexivity.
    + rewrite Hxy. f_equal. now apply IH.
Qed.

Lemma getFileVersions_skel (fid lim : nat) (s1 s2 : store) :
  map skel (versions s1) = map skel (versions s2) ->
  map skel (getFileVersions fid lim s1) = map skel (getFileVersions fid lim s2).
Proof.
  intros H. unfold getFileVersions. rewrite <- !firstn_map. f_equal.
  assert (Hf : map skel (versions_of fid (versions s1)) = map skel (versions_of fid (versions s2))).
  { revert H. unfold versions_of. generalize (versions s2) as l2. generalize (versions s1) as l1.
    intros l1. induction l1 as [|x l1 IH]; intros [|y l2] Hl; try discriminate; [reflexivity|].
    simpl in Hl.
    assert (Hxy : skel x = skel y) by congruence.
    assert (Hl' : map skel l1 = map skel l2) by congruence. clear Hl. rename Hl' into Hl.
    assert (E : file_id x = file_id y) by (unfold skel in Hxy; congruence).
    simpl. rewrite E. destruct (Nat.eqb (file_id y) fid); simpl; [|now apply IH].
    rewrite Hxy. f_equal. now apply IH. }
  revert Hf. generalize (versions_of fid (versions s2)) as l2.
  generalize (versions_of fid (versions s1)) as l1.
  intros l1. induction l1 as [|x l1 IH]; intros [|y l2] Hl; try discriminate; [reflexivity|].
  simpl in Hl.
  assert (Hxy : skel x = skel y) by congruence.
  assert (Hl' : map skel l1 = map skel l2) by congruence. clear Hl. rename Hl' into Hl.
  change (map skel (insert_desc x (sort_desc l1)) = map skel (insert_desc y (sort_desc l2))).
  apply insert_desc_skel; [exact Hxy|now apply IH].
Qed.

Lemma ids_of_skel (l : list VersionRecord) :
  map vr_id l = map (fun p => fst (fst p)) (map skel l).
Proof. rewrite map_map. reflexivity. Qed.

Lemma getVersion_unique (s : store) (x : nat) (r u : VersionRecord) :
  NoDup (map vr_id (versions s)) -> getVersion x s = Some r ->
  In u (versions s) -> vr_id u = x -> u = r.
Proof.
  intros Hnd Hg Hu Hx. unfold getVersion in Hg. apply find_some in Hg as [Hr Hrx].
  apply Nat.eqb_eq in Hrx. apply (nodup_map_inj vr_id (versions s)); congruence.
Qed.

Lemma getVersion_update (s : store) (x y : nat) (c lbl : string) :
  getVersion y (final_store (updateVersion x c lbl s)) =
  if Nat.eqb y x
  then option_map (fun r => mkVersionRecord (vr_id r) (file_id r) c (version_number r)
                              (Some lbl)) (getVersion y s)
  else getVersion y s.
Proof.
  unfold getVersion, updateVersion. simpl. induction (versions s) as [|v l IH]; simpl;
    [now destruct (Nat.eqb y x)|].
  destruct (Nat.eqb (vr_id v) x) eqn:Ex; simpl.
  - apply Nat.eqb_eq in Ex. subst x.
    destruct (Nat.eqb (vr_id v) y) eqn:Ey.
    + apply Nat.eqb_eq in Ey. subst y. now rewrite Nat.eqb_refl.
    + rewrite Nat.eqb_sym, Ey. rewrite IH. now rewrite Nat.eqb_sym, Ey.
  - destruct (Nat.eqb (vr_id v) y) eqn:Ey; [|exact IH].
    apply Nat.eqb_eq in Ey. subst y. now rewrite Ex.
Qed.

Lemma skel_update (s : store) (x : nat) (c lbl : string) :
  map skel (versions (final_store (updateVersion x c lbl s))) = map skel (versions s).
Proof.
  unfold updateVersion. simpl. rewrite map_map. apply map_ext. intros v.
  now destruct (Nat.eqb (vr_id v) x).
Qed.

Section Relabel.

Variables (fk : bool) (normalize : string -> string) (changedFiles : list string)
  (msg : string) (st : store) (w0 : VersionRecord).

Hypothesis Hids : NoDup (map vr_id (versions st)).

Lemma relabel_ids (done : bool) (s : store) :
  relabel_inv msg st w0 done s -> NoDup (map vr_id (versions s)).
Proof. intros [Hs _]. now rewrite ids_of_skel, Hs, <- ids_of_skel. Qed.

Lemma relabel_other (done : bool) (g : FileRecord) (s : store) :
  fr_id g <> file_id w0 -> relabel_inv msg st w0 done s ->
  exists s', commit_step fk normalize changedFiles msg false g s = Ok tt s' /\
             relabel_inv msg st w0 done s'.
Proof.
  intros Hg Hs. pose proof (relabel_ids done s Hs) as Hnd.
  unfold commit_step.
  destruct (negb _); [exists s; split; [reflexivity|exact Hs]|].
  unfold bind, query.
  destruct (getFileVersions (fr_id g) 10 s) as [|lv rest] eqn:Eg;
    [exists s; split; [reflexivity|exact Hs]|].
  assert (Hlv : In lv (versions s) /\ file_id lv = fr_id g)
    by (apply (in_getFileVersions (fr_id g) 10); rewrite Eg; now left).
  exists (final_store (updateVersion (vr_id lv) (labelled_content msg (content lv)) msg s)).
  split; [reflexivity|].
  destruct Hs as [Hsk Hgv]. split; [now rewrite skel_update|].
  rewrite getVersion_update.
  destruct (Nat.eqb (vr_id w0) (vr_id lv)) eqn:E; [|exact Hgv].
  apply Nat.eqb_eq in E.
  assert (Hu := getVersion_unique s (vr_id w0) _ lv Hnd Hgv (proj1 Hlv) (eq_sym E)).
  exfalso. apply Hg. rewrite <- (proj2 Hlv), Hu. now destruct done.
Qed.

Lemma relabel_others (done : bool) (l : list FileRecord) (s : store) :
  (forall g, In g l -> fr_id g <> file_id w0) -> relabel_inv msg st w0 done s ->
  exists s', forM_ l (commit_step fk normalize changedFiles msg false) s = Ok tt s' /\
             relabel_inv msg st w0 done s'.
Proof.
  revert s. induction l as [|g l IH]; intros s Hl Hs; [exists s; split; [reflexivity|exact Hs]|].
  destruct (relabel_other done g s (Hl g (or_introl eq_refl)) Hs) as [s1 [E1 H1]].
  simpl. unfold bind. rewrite E1. apply IH; [intros x Hx; apply Hl; now right|exact H1].
Qed.

Lemma relabel_target (f : FileRecord) (rest : list VersionRecord) (s : store) :
  In (normalize (file_path f)) changedFiles ->
  getFileVersions (fr_id f) 10 st = w0 :: rest ->
  relabel_inv msg st w0 false s ->
  exists s', commit_step fk normalize changedFiles msg false f s = Ok tt s' /\
             relabel_inv msg st w0 true s'.
Proof.
  intros Hin Hst Hs. pose proof (relabel_ids false s Hs) as Hnd.
  unfold commit_step.
  replace (existsb (String.eqb (normalize (file_path f))) changedFiles) with true
    by (symmetry; now apply existsb_eqb_In).
  unfold bind, query. cbn [negb].
  pose proof (getFileVersions_skel (fr_id f) 10 s st (proj1 Hs)) as Hsk.
  rewrite Hst in Hsk.
  destruct (getFileVersions (fr_id f) 10 s) as [|lv rest'] eqn:Eg; [discriminate|].
  simpl in Hsk. injection Hsk as Hlw _.
  assert (Hlv : In lv (versions s))
    by (apply (in_getFileVersions (fr_id f) 10 s lv); rewrite Eg; now left).
  assert (Eid : vr_id lv = vr_id w0) by (unfold skel in Hlw; congruence).
  assert (Hu := getVersion_unique s (vr_id w0) w0 lv Hnd (proj2 Hs) Hlv Eid). subst lv.
  exists (final_store (updateVersion (vr_id w0) (labelled_content msg (content w0)) msg s)).
  split; [reflexivity|].
  destruct Hs as [Hsk Hgv]. split; [now rewrite skel_update|].
  rewrite getVersion_update, Nat.eqb_refl, Hgv. reflexivity.
Qed.

End Relabel.

(** Without auto-cleanup, for a commit with a hash and a non-blank
    message, the newest snapshot [w0] of every file whose normalized path
    is among the changed files (the first row of [getFileVersions]) gets
    the content [/* Git commit: <msg> */\n<old content without its
    label>] and the label [msg]; its id, file and version number stay.
    File ids and version ids are assumed distinct (primary keys). *)
Theorem handleGitCommit_labels_latest (fk : bool) (normalize : string -> string)
    (changedFiles : list string) (h msg : string) (st : store) (f : FileRecord)
    (w0 : VersionRecord) (rest : list VersionRecord)
    (Hids : NoDup (map vr_id (versions st))) (Hfids : NoDup (map fr_id (files st)))
    (Hh : h <> ""%string) (Hmsg : is_blank msg = false)
    (Hf : In f (files st)) (Hin : In (normalize (file_path f)) changedFiles)
    (Hw0 : getFileVersions (fr_id f) 10 st = w0 :: rest) :
  exists st', handleGitCommit fk normalize changedFiles (Some h) (Some msg) false st
                = Ok tt st' /\
    getVersion (vr_id w0) st' =
      Some (mkVersionRecord (vr_id w0) (file_id w0) (labelled_content msg (content w0))
              (version_number w0) (Some msg)).
Proof.
  assert (Hfw : file_id w0 = fr_id f)
    by (apply (in_getFileVersions (fr_id f) 10 st w0); rewrite Hw0; now left).
  assert (Hg0 : getVersion (vr_id w0) st = Some w0).
  { assert (Hw : In w0 (versions st))
      by (apply (in_getFileVersions (fr_id f) 10 st w0); rewrite Hw0; now left).
    unfold getVersion. destruct (find _ (versions st)) as [r|] eqn:E.
    - f_equal. symmetry. apply (getVersion_unique st (vr_id w0) r w0 Hids E Hw eq_refl).
    - exfalso. apply (find_none _ _ E) in Hw. now rewrite Nat.eqb_refl in Hw. }
  assert (Hs0 : relabel_inv msg st w0 false st) by (split; [reflexivity|exact Hg0]).
  rewrite handleGitCommit_unfold.
  replace (String.eqb h "" || is_blank msg) with false
    by (rewrite Hmsg, orb_false_r; symmetry; now apply String.eqb_neq).
  apply in_split in Hf as [pre [post Hsplit]].
  assert (Hnot : forall g, In g (pre ++ post) -> fr_id g <> file_id w0).
  { intros g Hg E. rewrite Hsplit, map_app in Hfids. simpl in Hfids.
    apply NoDup_remove_2 in Hfids. apply Hfids. rewrite <- map_app, <- Hfw, <- E.
    now apply in_map. }
  unfold try_catch, bind at 1, query. unfold getAllFiles. rewrite Hsplit, forM_app.
  destruct (relabel_others fk normalize changedFiles msg st w0 Hids false pre st
              (fun g Hg => Hnot g (in_or_app _ _ _ (or_introl Hg))) Hs0) as [s1 [E1 H1]].
  unfold bind at 1. rewrite E1. simpl forM_. unfold bind at 1.
  destruct (relabel_target fk normalize changedFiles msg st w0 Hids f rest s1 Hin Hw0 H1)
    as [s2 [E2 H2]].
  rewrite E2.
  destruct (relabel_others fk normalize changedFiles msg st w0 Hids true post s2
              (fun g Hg => Hnot g (in_or_app _ _ _ (or_intror Hg))) H2) as [s3 [E3 H3]].
  rewrite E3. exists s3. split; [reflexivity|exact (proj2 H3)].
Qed.

Lemma handleGitCommit_labels_latest_witness :
  exists st', handleGitCommit false (fun p => p) ["a.txt"%string] (Some "h1"%string)
                (Some "fix"%string) false (store_three_snapshots false) = Ok tt st' /\
    getVersion 3 st' =
      Some (mkVersionRecord 3 1 (labelled_content "fix" "v3") 3 (Some "fix"%string)).
Proof.
  apply (handleGitCommit_labels_latest false (fun p => p) ["a.txt"%string] "h1" "fix"
           (store_three_snapshots false) (mkFileRecord 1 "a.txt" (Some 3))
           (mkVersionRecord 3 1 "v3" 3 None)
           [mkVersionRecord 2 1 "v2" 2 None; mkVersionRecord 1 1 "v1" 1 None]).
  - vm_compute. repeat constructor; simpl; intuition discriminate.
  - vm_compute. repeat constructor; simpl; intuition discriminate.
  - discriminate.
  - reflexivity.
  - vm_compute. now left.
  - now left.
  - vm_compute. reflexivity.
Defined.

(** ** Saving a one-line text to a new path *)

(** Under significant-change-only mode, in a store where every snapshot
    belongs to a file record, the first save of a text with at most one
    line to a path with no record creates the record and no snapshot. *)
Lemma onWillSave_new_one_line (fk : bool)
    (line_diff : list string -> list string -> list edit) (path c : string) (st : store) :
  getFile path st = None ->
  (forall v, In v (versions st) -> exists g, In g (files st) /\ fr_id g = file_id v) ->
  List.length (split_nl c) <= 1 ->
  exists st1, onWillSave fk line_diff false path c st = Ok tt st1 /\
    versions st1 = versions st.
Proof.
  intros Hnew Hown Hc.
  rewrite (onWillSave_new fk line_diff false path c st Hnew).
  rewrite (createFile_fresh path st Hnew). cbv zeta.
  set (i := next_rowid (files_seq st) (map fr_id (files st))).
  set (st0 := mkStore (files st ++ [mkFileRecord i path None]) (versions st) i
                (versions_seq st)).
  assert (Hnil : getFileVersions i 1 st0 = []).
  { destruct (getFileVersions i 1 st0) as [|v rest] eqn:E; [reflexivity|].
    exfalso. destruct (in_getFileVersions i 1 st0 v) as [Hin Hid].
    { rewrite E. now left. }
    destruct (Hown v Hin) as [g [Hg Hgid]].
    pose proof (fresh_rowid (files_seq st) (map fr_id (files st)) (fr_id g)
                  (in_map _ _ _ Hg)) as Hlt.
    fold i in Hlt. lia. }
  unfold try_catch. rewrite saveWithFile_unfold. cbv zeta. simpl fr_id.
  rewrite Hnil. unfold significant_change.
  replace (Nat.ltb 1 (List.length (split_nl c))) with false
    by (symmetry; apply Nat.ltb_ge; exact Hc).
  exists st0. split; reflexivity.
Qed.

(** C5 (as amended): whenever the latest stored snapshot of the file
    already holds the candidate content [c], the save handler creates no
    snapshot and leaves the store as it was, in both modes; a save adds at
    most one snapshot, holding [c]; and a second save of the same path and
    content right after a first one never changes the store.  So two
    identical saves create at most one snapshot.  Under
    significant-change-only mode, in a store where every snapshot belongs
    to a file record, saving a text with at most one line (no line break)
    to a path with no record creates the record and no snapshot, and
    saving it again changes nothing: the two saves create no snapshot. *)
Theorem onWillSave_same_content (fk : bool)
    (line_diff : list string -> list string -> list edit)
    (saveAllChanges : bool) (relativePath c : string) :
  (forall st f v rest,
     getFile relativePath st = Some f ->
     getFileVersions (fr_id f) 1 st = v :: rest -> content v = c ->
     onWillSave fk line_diff saveAllChanges relativePath c st = Ok tt st) /\
  (forall st st1,
     onWillSave fk line_diff saveAllChanges relativePath c st = Ok tt st1 ->
     versions st1 = versions st \/
     exists v, versions st1 = versions st ++ [v] /\ content v = c) /\
  (forall st st1,
     onWillSave fk line_diff saveAllChanges relativePath c st = Ok tt st1 ->
     onWillSave fk line_diff saveAllChanges relativePath c st1 = Ok tt st1) /\
  (saveAllChanges = false -> forall st,
     getFile relativePath st = None ->
     (forall v, In v (versions st) -> exists g, In g (files st) /\ fr_id g = file_id v) ->
     List.length (split_nl c) <= 1 ->
     exists st1, onWillSave fk line_diff saveAllChanges relativePath c st = Ok tt st1 /\
       (exists f, getFile relativePath st1 = Some f) /\
       versions st1 = versions st /\
       onWillSave fk line_diff saveAllChanges relativePath c st1 = Ok tt st1).
Proof.
  assert (Hagain : forall st st1,
     onWillSave fk line_diff saveAllChanges relativePath c st = Ok tt st1 ->
     (exists f, getFile relativePath st1 = Some f) /\
     onWillSave fk line_diff saveAllChanges relativePath c st1 = Ok tt st1).
  { intros st st1 Hrun.
    destruct (proj1 (onWillSave_step fk line_diff saveAllChanges _ _ _ _ Hrun))
      as [f [Hf Hs]].
    split; [now exists f|].
    rewrite (onWillSave_found fk line_diff saveAllChanges relativePath c st1 f Hf).
    unfold try_catch. now rewrite Hs. }
  split; [|split; [|split]].
  - intros st f v rest Hf Hv Hc.
    rewrite (onWillSave_found fk line_diff saveAllChanges relativePath c st f Hf).
    unfold try_catch. rewrite saveWithFile_unfold. cbv zeta. rewrite Hv, Hc, String.eqb_refl.
    reflexivity.
  - intros st st1 Hrun. exact (proj2 (onWillSave_step fk line_diff saveAllChanges _ _ _ _ Hrun)).
  - intros st st1 Hrun. exact (proj2 (Hagain st st1 Hrun)).
  - intros -> st Hnew Hown Hc.
    destruct (onWillSave_new_one_line fk line_diff relativePath c st Hnew Hown Hc)
      as [st1 [Hrun Hv]].
    exists st1. destruct (Hagain st st1 Hrun) as [Hf H2].
    split; [exact Hrun|split; [exact Hf|split; [exact Hv|exact H2]]].
Qed.

(** C5 fails as stated: under significant-change-only (the default), two
    saves of the one-line text ["x"] to a new path create no snapshot. *)
Lemma onWillSave_twice_no_snapshot :
  versions (final_store (onWillSave false shortest_script false "a.txt" "x"
             (final_store (onWillSave false shortest_script false "a.txt" "x" empty_store))))
    = [].
Proof. vm_compute. reflexivity. Qed.
